(** * aiohttp.web: the [run_app] lifecycle driver and the [main] entry point

    A shallow embedding of [src/aiohttp/web.py].  Python values are modelled
    by inductive types, the event loop and the runner by an explicit state
    with a chronological trace of the effectful calls, and exceptions by an
    error monad with [try ... finally] and [try ... except] combinators. *)

From Stdlib Require Import List String Ascii ZArith QArith Bool Arith Lia.
Import ListNotations.

Local Close Scope Q_scope.
Local Open Scope string_scope.
Local Open Scope list_scope.

(** ** Python values *)

(** An argument that is [None], one value, or an iterable of values
    ([host], [path] and [sock] of [run_app]).  For [host] and [path] the
    value is [Single] when [isinstance(x, (str, bytes, bytearray,
    memoryview))] holds; for [sock], when [isinstance(x, Iterable)] does
    not. *)
Inductive pyarg (A : Type) : Type :=
| Absent
| Single (a : A)
| Sequence (l : list A).

Arguments Absent {A}.
Arguments Single {A} a.
Arguments Sequence {A} l.

Definition is_none {A} (x : pyarg A) : bool :=
  match x with Absent => true | _ => false end.

(** The values an argument stands for, in iteration order. *)
Definition elements {A} (x : pyarg A) : list A :=
  match x with
  | Absent => []
  | Single a => [a]
  | Sequence l => l
  end.

Definition opt_is_some {A} (x : option A) : bool :=
  match x with Some _ => true | None => false end.

(** Exceptions that travel through [run_app] and [main]. *)
Inductive exn : Type :=
| GracefulExit
| KeyboardInterrupt
| Exception (msg : string)
| SystemExit (status : Z) (msg : string).

Definition is_interrupt (e : exn) : bool :=
  match e with
  | GracefulExit | KeyboardInterrupt => true
  | _ => false
  end.

(** ** Sites *)

(** A socket handle and an [SSLContext] are opaque: they are named by a
    number. *)
Definition socket := nat.
Definition SSLContext := nat.

(** The keyword arguments every site constructor receives. *)
Record site_kwargs : Type := mk_kwargs {
  kw_shutdown_timeout : Q;
  kw_ssl_context : option SSLContext;
  kw_backlog : Z
}.

(** A site as [run_app] constructs it: the class and the arguments passed.
    [TCPSite] with [host = None] is the call [TCPSite(runner, port=port, ...)]
    that leaves the host to the class default (the wildcard address). *)
Inductive Site : Type :=
| TCPSite (host : option string) (port : option Z) (kw : site_kwargs)
          (reuse_address reuse_port : option bool)
| UnixSite (path : string) (kw : site_kwargs)
| SockSite (sock : socket) (kw : site_kwargs).

Definition is_tcp (s : Site) : bool :=
  match s with TCPSite _ _ _ _ _ => true | _ => false end.
Definition is_unix (s : Site) : bool :=
  match s with UnixSite _ _ => true | _ => false end.
Definition is_sock (s : Site) : bool :=
  match s with SockSite _ _ => true | _ => false end.

(** ** Events, world and state *)

Inductive Event : Type :=
| EvAwaitApp                          (* loop.run_until_complete(app) *)
| EvSetup                             (* runner.setup() *)
| EvStart (s : Site)                  (* site.start() is entered *)
| EvSettled (s : Site) (r : option exn) (* site.start() has completed *)
| EvPrint (msg : string)              (* print(...) *)
| EvRunForever                        (* loop.run_forever() *)
| EvCleanup                           (* runner.cleanup() *)
| EvStop (s : Site)                   (* site.stop(), from cleanup *)
| EvShutdownAsyncgens                 (* loop.shutdown_asyncgens() *)
| EvClose                             (* loop.close() *)
| EvImport (mod_str : string)         (* import_module(mod_str) *)
| EvLogging                           (* logging.basicConfig(...) *)
| EvFactory (argv : list string).     (* func(extra_argv) *)

(** What the collaborators outside [web.py] do in one run: [None] is a
    normal return, [Some e] raises [e]. *)
Record World : Type := mk_world {
  site_ctor : Site -> option exn;
  site_start : nat -> Site -> option exn;
  site_name : Site -> string;
  runner_setup : option exn;
  runner_cleanup : option exn;
  run_forever : option exn;
  PY_36 : bool;
  has_shutdown_asyncgens : bool;
  shutdown_asyncgens : option exn;
  loop_close : option exn
}.

Record State : Type := mk_state {
  trace : list Event;        (* effectful calls so far, oldest first *)
  sites : list Site;         (* the local variable [sites] *)
  runner_sites : list Site   (* [runner.sites] *)
}.

Definition st0 : State := mk_state [] [] [].

(** ** The monad: state and exceptions *)

Inductive result (A : Type) : Type :=
| Ok (a : A)
| Raise (e : exn).

Arguments Ok {A} a.
Arguments Raise {A} e.

Definition M (A : Type) : Type := State -> State * result A.

Definition ret {A} (a : A) : M A := fun st => (st, Ok a).

Definition bind {A B} (m : M A) (k : A -> M B) : M B :=
  fun st =>
    match m st with
    | (st1, Ok a) => k a st1
    | (st1, Raise e) => (st1, Raise e)
    end.

Definition raise {A} (e : exn) : M A := fun st => (st, Raise e).

Notation "x <- m1 ;; m2" := (bind m1 (fun x => m2))
  (at level 61, m1 at next level, right associativity).
Notation "m1 ;; m2" := (bind m1 (fun _ => m2))
  (at level 61, right associativity).

Definition emit (e : Event) : M unit :=
  fun st => (mk_state (trace st ++ [e]) (sites st) (runner_sites st), Ok tt).

(** An external call: it is recorded, then returns or raises. *)
Definition call (e : Event) (r : option exn) : M unit :=
  emit e ;; match r with None => ret tt | Some x => raise x end.

(** [try: body finally: fin].  A [fin] that raises replaces the outcome of
    [body]. *)
Definition try_finally {A} (body : M A) (fin : M unit) : M A :=
  fun st =>
    match body st with
    | (st1, r) =>
        match fin st1 with
        | (st2, Ok _) => (st2, r)
        | (st2, Raise e) => (st2, Raise e)
        end
    end.

(** [try: body except (GracefulExit, KeyboardInterrupt): pass]. *)
Definition try_except_interrupt (body : M unit) : M unit :=
  fun st =>
    match body st with
    | (st1, Raise e) => if is_interrupt e then (st1, Ok tt) else (st1, Raise e)
    | other => other
    end.

(** [for x in l: body(x)]. *)
Fixpoint for_each {A} (l : list A) (body : A -> M unit) : M unit :=
  match l with
  | [] => ret tt
  | x :: xs => body x ;; for_each xs body
  end.

(** [for i, x in enumerate(l, i0): body(i, x)]; the position tells the
    world which start is meant when a site occurs twice. *)
Fixpoint for_each_from {A} (i0 : nat) (l : list A) (body : nat -> A -> M unit)
  : M unit :=
  match l with
  | [] => ret tt
  | x :: xs => body i0 x ;; for_each_from (S i0) xs body
  end.

(** ** The arguments of [run_app] *)

Inductive AppArg : Type :=
| AppReady                        (* an [Application] *)
| AppCoroutine (r : option exn).  (* a coroutine, and how awaiting it ends *)

Record run_args : Type := mk_run_args {
  app : AppArg;
  host : pyarg string;
  port : option Z;
  path : pyarg string;
  sock : pyarg socket;
  shutdown_timeout : Q;
  ssl_context : option SSLContext;
  print : option (string -> option exn);
  backlog : Z;
  reuse_address : option bool;
  reuse_port : option bool
}.

(** The keyword defaults of the signature of [run_app]. *)
Definition run_app_defaults (a : AppArg) (h : pyarg string) (p : option Z)
  (pa : pyarg string) : run_args :=
  mk_run_args a h p pa Absent (60 # 1)%Q None (Some (fun _ => None)) 128
              None None.

Definition kwargs_of (a : run_args) : site_kwargs :=
  mk_kwargs (shutdown_timeout a) (ssl_context a) (backlog a).

Definition tcp_site (a : run_args) (h : option string) : Site :=
  TCPSite h (port a) (kwargs_of a) (reuse_address a) (reuse_port a).
Definition unix_site (a : run_args) (p : string) : Site :=
  UnixSite p (kwargs_of a).
Definition sock_site (a : run_args) (s : socket) : Site :=
  SockSite s (kwargs_of a).

(** ** Building the sites (lines 89-136) *)

(** [sites.append(C(...))]: the constructor runs first and may raise. *)
Definition append_site (w : World) (s : Site) : M unit :=
  fun st =>
    match site_ctor w s with
    | Some e => (st, Raise e)
    | None => (mk_state (trace st) (sites st ++ [s]) (runner_sites st), Ok tt)
    end.

Definition build_sites (w : World) (a : run_args) : M unit :=
  match host a with
  | Single h => append_site w (tcp_site a (Some h))
  | Sequence hs => for_each hs (fun h => append_site w (tcp_site a (Some h)))
  | Absent =>
      if (is_none (path a) && is_none (sock a)) || opt_is_some (port a)
      then append_site w (tcp_site a None)
      else ret tt
  end ;;
  match path a with
  | Absent => ret tt
  | Single p => append_site w (unix_site a p)
  | Sequence ps => for_each ps (fun p => append_site w (unix_site a p))
  end ;;
  match sock a with
  | Absent => ret tt
  | Single s => append_site w (sock_site a s)
  | Sequence ss => for_each ss (fun s => append_site w (sock_site a s))
  end.

(** The list [sites] after the building phase of a fresh run. *)
Definition sites_built (w : World) (a : run_args) : list Site :=
  sites (fst (build_sites w a st0)).

(** ** The runner and the sites, as [run_app] uses them *)

Definition set_sites (l : list Site) : M unit :=
  fun st => (mk_state (trace st) l (runner_sites st), Ok tt).

Definition get_sites : M (list Site) := fun st => (st, Ok (sites st)).

Definition get_runner_sites : M (list Site) :=
  fun st => (st, Ok (runner_sites st)).

(** [runner = AppRunner(app, ...)]: a runner that owns no site yet. *)
Definition AppRunner : M unit :=
  fun st => (mk_state (trace st) (sites st) [], Ok tt).

Definition setup (w : World) : M unit := call EvSetup (runner_setup w).

(** Modelled from the spec: [site.start()] of [web_runner], which is not
    among the sources.  Section 3: an endpoint that starts acquires its
    listening resource and registers with the runner; section 4.3: a start
    that fails raises.  The call runs to completion inside
    [loop.run_until_complete]. *)
Definition start (w : World) (i : nat) (s : Site) : M unit :=
  emit (EvStart s) ;;
  fun st =>
    match site_start w i s with
    | None =>
        (mk_state (trace st ++ [EvSettled s None]) (sites st)
                  (runner_sites st ++ [s]), Ok tt)
    | Some e =>
        (mk_state (trace st ++ [EvSettled s (Some e)]) (sites st)
                  (runner_sites st), Raise e)
    end.

(** Modelled from the spec: [runner.cleanup()] of [web_runner], which is
    not among the sources.  Section 4.2: it stops every registered endpoint,
    all of them being attempted, then runs the application's shutdown
    hooks, which may raise. *)
Definition cleanup (w : World) : M unit :=
  emit EvCleanup ;;
  registered <- get_runner_sites ;;
  for_each registered (fun s => emit (EvStop s)) ;;
  match runner_cleanup w with
  | None => ret tt
  | Some e => raise e
  end.

(** [sorted] on strings. *)
Fixpoint insert_sorted (x : string) (l : list string) : list string :=
  match l with
  | [] => [x]
  | y :: r => if String.leb x y then x :: l else y :: insert_sorted x r
  end.

Definition sorted (l : list string) : list string :=
  fold_right insert_sorted [] l.

Definition newline : string := String (ascii_of_nat 10) EmptyString.

(** The report of line 142, [names] being already sorted. *)
Definition running_on (names : list string) : string :=
  "======== Running on " ++ String.concat ", " names ++ " ========"
  ++ newline ++ "(Press CTRL+C to quit)".

(** Lines 139-146: the report and the serve-wait, interrupts absorbed. *)
Definition serve (w : World) (a : run_args) : M unit :=
  try_except_interrupt
    (match print a with
     | Some pr =>
         registered <- get_runner_sites ;;
         let msg := running_on (sorted (map (site_name w) registered)) in
         call (EvPrint msg) (pr msg)
     | None => ret tt
     end ;;
     call EvRunForever (run_forever w)).

(** Lines 88-148: the body guarded by [finally]. *)
Definition guarded (w : World) (a : run_args) : M unit :=
  try_finally
    (build_sites w a ;;
     ss <- get_sites ;;
     for_each_from 0 ss (start w) ;;
     serve w a)
    (cleanup w).

(** Lines 149-152: what follows the [finally] clause. *)
Definition closing (w : World) : M unit :=
  (if PY_36 w
   then if has_shutdown_asyncgens w
        then call EvShutdownAsyncgens (shutdown_asyncgens w)
        else ret tt
   else ret tt) ;;
  call EvClose (loop_close w).

(** ** [run_app] *)

Definition run_app (w : World) (a : run_args) : M unit :=
  match app a with
  | AppCoroutine r => call EvAwaitApp r
  | AppReady => ret tt
  end ;;
  AppRunner ;;
  setup w ;;
  set_sites [] ;;
  guarded w a ;;
  closing w.

(** ** [main] *)

(** The namespace [parse_known_args] returns. *)
Record cli_args : Type := mk_cli_args {
  args_entry_func : string;
  args_hostname : string;
  args_port : Z;
  args_path : option string
}.

(** The defaults declared with [add_argument]. *)
Definition cli_defaults (entry : string) (p : option string) : cli_args :=
  mk_cli_args entry "localhost" 8080 p.

(** A factory takes [extra_argv] and returns the application. *)
Definition factory := list string -> AppArg.

(** A module: [getattr(module, name)], [None] for [AttributeError]. *)
Definition module := string -> option factory.

(** The platform: what [import_module] finds ([inr] carries the text of
    the [ImportError]) and whether [socket] has [AF_UNIX].  An import that
    raises anything but [ImportError] is outside this model: line 194
    does not catch it. *)
Record Env : Type := mk_env {
  import_module : string -> module + string;
  has_AF_UNIX : bool
}.

(** [s.partition(sep)]. *)
Definition partition (sep s : string) : string * string * string :=
  match index 0 sep s with
  | Some i =>
      (substring 0 i s, sep,
       substring (i + String.length sep)
                 (String.length s - i - String.length sep) s)
  | None => (s, "", "")
  end.

Definition is_empty (s : string) : bool :=
  match s with EmptyString => true | _ => false end.

(** [s.startswith(p)]. *)
Definition startswith (p s : string) : bool := prefix p s.

(** [%r] of a string that holds no quote and no escape. *)
Definition repr (s : string) : string := "'" ++ s ++ "'".

(** [arg_parser.error(message)]: exits with status 2 and the message. *)
Definition arg_parser_error {A} (msg : string) : M A :=
  raise (SystemExit 2 msg).

(** [arg_parser.exit(message=...)]: exits with status 0. *)
Definition arg_parser_exit {A} (msg : string) : M A :=
  raise (SystemExit 0 msg).

Definition msg_entry_func : string :=
  "'entry-func' not in 'module:function' syntax".
Definition msg_relative : string := "relative module names not supported".
Definition msg_no_af_unix : string :=
  "file system paths not supported by your operating environment".

(** The call of line 209:
    [run_app(app, host=args.hostname, port=args.port, path=args.path)]. *)
Definition cli_run_args (args : cli_args) (a : AppArg) : run_args :=
  run_app_defaults a (Single (args_hostname args)) (Some (args_port args))
    (match args_path args with
     | Some p => Single p
     | None => Absent
     end).

(** Lines 185-210, from the namespace that [parse_known_args] (line 182)
    has returned: the exits the parser makes itself are not part of it. *)
Definition main (env : Env) (w : World) (args : cli_args)
  (extra_argv : list string) : M unit :=
  let '(mod_str, _, func_str) := partition ":" (args_entry_func args) in
  (if is_empty func_str || is_empty mod_str
   then arg_parser_error msg_entry_func else ret tt) ;;
  (if startswith "." mod_str
   then arg_parser_error msg_relative else ret tt) ;;
  mod_ <- (emit (EvImport mod_str) ;;
           match import_module env mod_str with
           | inl m => ret m
           | inr ex =>
               arg_parser_error ("unable to import " ++ mod_str ++ ": " ++ ex)
           end) ;;
  func <- match mod_ func_str with
          | Some f => ret f
          | None =>
              arg_parser_error ("module " ++ repr mod_str
                                ++ " has no attribute " ++ repr func_str)
          end ;;
  (if opt_is_some (args_path args) && negb (has_AF_UNIX env)
   then arg_parser_error msg_no_af_unix else ret tt) ;;
  emit EvLogging ;;
  emit (EvFactory extra_argv) ;;
  run_app w (cli_run_args args (func extra_argv)) ;;
  arg_parser_exit ("Stopped" ++ newline).

(** The exit status of the process that runs [main]: the status of a
    [SystemExit], 1 for any other uncaught exception. *)
Definition exit_status (r : result unit) : Z :=
  match r with
  | Ok _ => 0
  | Raise (SystemExit c _) => c
  | Raise _ => 1
  end.

(** ** The endpoint set of section 4.1, rule by rule

    These definitions follow the words of the specification; they are
    compared with [build_sites] below. *)

(** Rule 1: a host value is supplied. *)
Definition spec_rule1 (a : run_args) : list Site :=
  match host a with
  | Absent => []
  | Single h => [tcp_site a (Some h)]
  | Sequence hs => map (fun h => tcp_site a (Some h)) hs
  end.

(** Rule 2: else, no path and no socket were supplied, or a port was. *)
Definition spec_rule2 (a : run_args) : list Site :=
  if is_none (host a)
  then if (is_none (path a) && is_none (sock a)) || opt_is_some (port a)
       then [tcp_site a None]
       else []
  else [].

(** Rule 3: one Unix site per path. *)
Definition spec_rule3 (a : run_args) : list Site :=
  map (unix_site a) (elements (path a)).

(** Rule 4: one socket site per handle. *)
Definition spec_rule4 (a : run_args) : list Site :=
  map (sock_site a) (elements (sock a)).

(** The union of the rules that match, in the order of the rules. *)
Definition spec_endpoint_set (a : run_args) : list Site :=
  spec_rule1 a ++ spec_rule2 a ++ spec_rule3 a ++ spec_rule4 a.

(** ** Observations on traces *)

Definition is_cleanup (e : Event) : bool :=
  match e with EvCleanup => true | _ => false end.

(** How many times [runner.cleanup()] was called. *)
Definition count_cleanup (tr : list Event) : nat :=
  List.length (filter is_cleanup tr).

(** The sites whose [start()] was entered, in order. *)
Definition started (tr : list Event) : list Site :=
  flat_map (fun e => match e with EvStart s => [s] | _ => [] end) tr.

(** The sites stopped, in order. *)
Definition stopped (tr : list Event) : list Site :=
  flat_map (fun e => match e with EvStop s => [s] | _ => [] end) tr.

Definition is_start_event (e : Event) : bool :=
  match e with EvStart _ | EvSettled _ _ => true | _ => false end.

(** The part of a trace that concerns [site.start()]. *)
Definition start_trace (tr : list Event) : list Event :=
  filter is_start_event tr.

Definition is_print (e : Event) : bool :=
  match e with EvPrint _ => true | _ => false end.

(** Whether the report was printed. *)
Definition printed (tr : list Event) : bool := existsb is_print tr.

Definition is_run_forever (e : Event) : bool :=
  match e with EvRunForever => true | _ => false end.

(** Whether the serve-wait was entered. *)
Definition served (tr : list Event) : bool := existsb is_run_forever tr.

Definition is_factory (e : Event) : bool :=
  match e with EvFactory _ => true | _ => false end.

(** Whether the application factory was called. *)
Definition factory_called (tr : list Event) : bool := existsb is_factory tr.

(** The events of sites that start one after the other, all with
    success. *)
Definition start_events (l : list Site) : list Event :=
  flat_map (fun s => [EvStart s; EvSettled s None]) l.

(** The events of awaiting the application, if it is a coroutine. *)
Definition await_events (a : run_args) : list Event :=
  match app a with
  | AppReady => []
  | AppCoroutine _ => [EvAwaitApp]
  end.

(** The report, when [print] is given; [registered] is [runner.sites]. *)
Definition report_events (w : World) (a : run_args) (registered : list Site)
  : list Event :=
  match print a with
  | Some _ => [EvPrint (running_on (sorted (map (site_name w) registered)))]
  | None => []
  end.

(** The two sides of the colon in [entry_func]. *)
Definition mod_of (args : cli_args) : string :=
  fst (fst (partition ":" (args_entry_func args))).
Definition func_of (args : cli_args) : string :=
  snd (partition ":" (args_entry_func args)).

(** The events after [finally]: lines 149-152. *)
Definition close_events (w : World) : list Event :=
  (if PY_36 w && has_shutdown_asyncgens w then [EvShutdownAsyncgens] else [])
  ++ [EvClose].

(** The events of the guarded body: starts, the report, the serve-wait. *)
Definition is_body_event (e : Event) : bool :=
  match e with
  | EvStart _ | EvSettled _ _ | EvPrint _ | EvRunForever => true
  | _ => false
  end.

(** The events of lines 139-146. *)
Definition is_serve_event (e : Event) : bool :=
  match e with
  | EvPrint _ | EvRunForever => true
  | _ => false
  end.

(** The events of lines 149-152. *)
Definition is_closing_event (e : Event) : bool :=
  match e with
  | EvShutdownAsyncgens | EvClose => true
  | _ => false
  end.

(** ** Conditions on a run *)

(** The application is there, or awaiting it returns. *)
Definition app_ok (a : run_args) : Prop :=
  app a = AppReady \/ app a = AppCoroutine None.

(** No site constructor raises. *)
Definition ctors_ok (w : World) : Prop := forall s, site_ctor w s = None.

(** The sites of [l], started from position [i0] on, all start. *)
Definition starts_ok (w : World) (i0 : nat) (l : list Site) : Prop :=
  forall i s, nth_error l i = Some s -> site_start w (i0 + i) s = None.

(** [print], if any, returns. *)
Definition print_ok (a : run_args) : Prop :=
  forall pr msg, print a = Some pr -> pr msg = None.

(** Everything up to the serve-wait succeeds. *)
Definition startup_ok (w : World) (a : run_args) : Prop :=
  app_ok a /\ runner_setup w = None /\ ctors_ok w
  /\ starts_ok w 0 (sites_built w a) /\ print_ok a.

(** Cleanup and the closing of the loop succeed. *)
Definition teardown_ok (w : World) : Prop :=
  runner_cleanup w = None
  /\ (PY_36 w && has_shutdown_asyncgens w = true -> shutdown_asyncgens w = None)
  /\ loop_close w = None.

(** [main] gets as far as the compatibility check of line 202 and finds
    the factory [f]. *)
Definition resolves (env : Env) (args : cli_args) (f : factory) : Prop :=
  is_empty (func_of args) = false /\ is_empty (mod_of args) = false
  /\ startswith "." (mod_of args) = false
  /\ exists m, import_module env (mod_of args) = inl m
               /\ m (func_of args) = Some f.

(** A computation whose events all satisfy [ok], however it ends. *)
Definition emits_only (ok : Event -> bool) {A} (m : M A) : Prop :=
  forall st st' r, m st = (st', r) ->
    exists evs, trace st' = trace st ++ evs /\ forallb ok evs = true.

(** The world [w] with another end of [loop.run_forever()]. *)
Definition with_run_forever (w : World) (r : option exn) : World :=
  mk_world (site_ctor w) (site_start w) (site_name w) (runner_setup w)
           (runner_cleanup w) r (PY_36 w) (has_shutdown_asyncgens w)
           (shutdown_asyncgens w) (loop_close w).

(** ** Concrete worlds and arguments *)

(** Every collaborator succeeds and the serve-wait ends with Ctrl-C. *)
Definition w_quiet : World :=
  mk_world (fun _ => None) (fun _ _ => None) (fun _ => "site")
           None None (Some KeyboardInterrupt) true true None None.

(** As [w_quiet], but [runner.setup()] raises. *)
Definition w_setup_fails : World :=
  mk_world (fun _ => None) (fun _ _ => None) (fun _ => "site")
           (Some (Exception "setup")) None (Some KeyboardInterrupt)
           true true None None.

(** As [w_quiet], but the second site fails to start. *)
Definition w_second_fails : World :=
  mk_world (fun _ => None)
           (fun i _ => if Nat.eqb i 1 then Some (Exception "bind") else None)
           (fun _ => "site")
           None None (Some KeyboardInterrupt) true true None None.

(** A platform with module [mod] holding the factory [func]. *)
Definition env_of (af_unix : bool) : Env :=
  mk_env (fun m =>
            if String.eqb m "mod"
            then inl (fun f => if String.eqb f "func"
                               then Some (fun _ => AppReady) else None)
            else inr "No module named that")
         af_unix.

Definition a_wildcard : run_args :=
  run_app_defaults AppReady Absent (Some 9%Z) Absent.

Definition a_three_hosts : run_args :=
  run_app_defaults AppReady (Sequence ["a"; "b"; "c"]) (Some 9%Z) Absent.

Definition a_no_hosts : run_args :=
  run_app_defaults AppReady (Sequence []) None Absent.

(** ** Further observations and worlds *)

(** The keyword arguments a site was constructed with. *)
Definition site_kw (s : Site) : site_kwargs :=
  match s with
  | TCPSite _ _ kw _ _ => kw
  | UnixSite _ kw => kw
  | SockSite _ kw => kw
  end.

(** The events of [run_app]: all but those [main] emits itself. *)
Definition is_run_event (e : Event) : bool :=
  match e with
  | EvImport _ | EvLogging | EvFactory _ => false
  | _ => true
  end.

(** Whether [loop.close()] or [loop.shutdown_asyncgens()] was called. *)
Definition closed (tr : list Event) : bool := existsb is_closing_event tr.

(** As [w_quiet], but the constructor of [UnixSite] raises. *)
Definition w_unix_ctor_fails : World :=
  mk_world (fun s => if is_unix s then Some (Exception "ctor") else None)
           (fun _ _ => None) (fun _ => "site")
           None None (Some KeyboardInterrupt) true true None None.

(** As [w_quiet], but the serve-wait ends with an error. *)
Definition w_serve_error : World :=
  mk_world (fun _ => None) (fun _ _ => None) (fun _ => "site")
           None None (Some (Exception "loop")) true true None None.

(** As [w_quiet], but [runner.cleanup()] raises. *)
Definition w_cleanup_fails : World :=
  mk_world (fun _ => None) (fun _ _ => None) (fun _ => "site")
           None (Some (Exception "cleanup")) (Some KeyboardInterrupt)
           true true None None.

(** As [w_quiet], but [loop.shutdown_asyncgens()] raises. *)
Definition w_asyncgens_fails : World :=
  mk_world (fun _ => None) (fun _ _ => None) (fun _ => "site")
           None None (Some KeyboardInterrupt) true true
           (Some (Exception "asyncgens")) None.

Definition a_host_and_path : run_args :=
  run_app_defaults AppReady (Single "a") None (Single "/x").

(** [print] raises [e] whatever it is given. *)
Definition a_print_raises (e : exn) : run_args :=
  mk_run_args AppReady Absent (Some 9%Z) Absent Absent (60 # 1)%Q None
              (Some (fun _ => Some e)) 128 None None.

(** A computation that only builds: it leaves the trace and the runner
    alone, and whether it raises does not depend on the state. *)
Definition builds_only (m : M unit) : Prop :=
  forall st,
    trace (fst (m st)) = trace st
    /\ runner_sites (fst (m st)) = runner_sites st
    /\ snd (m st) = snd (m st0).

(** The arguments with which no rule of lines 89-136 appends a site: path
    and sock give no element, and either host is an empty sequence, or host
    and port are absent while a path or a sock is supplied. *)
Definition builds_nothing (a : run_args) : Prop :=
  elements (path a) = [] /\ elements (sock a) = []
  /\ (host a = Sequence []
      \/ (host a = Absent /\ port a = None
          /\ is_none (path a) && is_none (sock a) = false)).

(** * Proofs *)

(** ** The monad *)

Lemma bind_ok {A B} (m : M A) (k : A -> M B) st st1 a :
  m st = (st1, Ok a) -> bind m k st = k a st1.
Proof. intros H. unfold bind. rewrite H. reflexivity. Qed.

Lemma bind_raise {A B} (m : M A) (k : A -> M B) st st1 e :
  m st = (st1, Raise e) -> bind m k st = (st1, Raise e).
Proof. intros H. unfold bind. rewrite H. reflexivity. Qed.

Lemma state_eta st : mk_state (trace st) (sites st) (runner_sites st) = st.
Proof. destruct st; reflexivity. Qed.

(** ** Lists of sites *)

Lemma filter_map_all {A B} (p : B -> bool) (f : A -> B) l :
  (forall x, p (f x) = true) -> filter p (map f l) = map f l.
Proof.
  intros H. induction l as [|x l IH]; simpl; [reflexivity|].
  rewrite H, IH. reflexivity.
Qed.

Lemma filter_map_none {A B} (p : B -> bool) (f : A -> B) l :
  (forall x, p (f x) = false) -> filter p (map f l) = [].
Proof.
  intros H. induction l as [|x l IH]; simpl; [reflexivity|].
  rewrite H. exact IH.
Qed.

Lemma rule1_tcp a : filter is_tcp (spec_rule1 a) = spec_rule1 a.
Proof.
  unfold spec_rule1. destruct (host a); try reflexivity.
  apply filter_map_all. reflexivity.
Qed.

Lemma rule2_tcp a : filter is_tcp (spec_rule2 a) = spec_rule2 a.
Proof.
  unfold spec_rule2.
  destruct (is_none (host a)); [|reflexivity].
  destruct ((is_none (path a) && is_none (sock a)) || opt_is_some (port a));
    reflexivity.
Qed.

(** The TCP sites of the endpoint set come from rules 1 and 2 only. *)
Lemma endpoint_set_tcp a :
  filter is_tcp (spec_endpoint_set a) = spec_rule1 a ++ spec_rule2 a.
Proof.
  unfold spec_endpoint_set. rewrite !filter_app, rule1_tcp, rule2_tcp.
  unfold spec_rule3, spec_rule4.
  rewrite (filter_map_none is_tcp (unix_site a)) by reflexivity.
  rewrite (filter_map_none is_tcp (sock_site a)) by reflexivity.
  rewrite !app_nil_r. reflexivity.
Qed.

Lemma rule1_not p a :
  (forall h, p (tcp_site a h) = false) -> filter p (spec_rule1 a) = [].
Proof.
  intros H. unfold spec_rule1. destruct (host a); simpl; try reflexivity.
  - rewrite H. reflexivity.
  - apply filter_map_none. intros x. apply H.
Qed.

Lemma rule2_not p a :
  (forall h, p (tcp_site a h) = false) -> filter p (spec_rule2 a) = [].
Proof.
  intros H. unfold spec_rule2.
  destruct (is_none (host a)); [|reflexivity].
  destruct ((is_none (path a) && is_none (sock a)) || opt_is_some (port a));
    simpl; [rewrite H|]; reflexivity.
Qed.

(** The Unix sites come from rule 3 only. *)
Lemma endpoint_set_unix a :
  filter is_unix (spec_endpoint_set a) = map (unix_site a) (elements (path a)).
Proof.
  unfold spec_endpoint_set.
  rewrite !filter_app, rule1_not, rule2_not by reflexivity.
  unfold spec_rule3, spec_rule4.
  rewrite (filter_map_all is_unix (unix_site a)) by reflexivity.
  rewrite (filter_map_none is_unix (sock_site a)) by reflexivity.
  rewrite app_nil_r. reflexivity.
Qed.

(** The socket sites come from rule 4 only. *)
Lemma endpoint_set_sock a :
  filter is_sock (spec_endpoint_set a) = map (sock_site a) (elements (sock a)).
Proof.
  unfold spec_endpoint_set.
  rewrite !filter_app, rule1_not, rule2_not by reflexivity.
  unfold spec_rule3, spec_rule4.
  rewrite (filter_map_none is_sock (unix_site a)) by reflexivity.
  rewrite (filter_map_all is_sock (sock_site a)) by reflexivity.
  reflexivity.
Qed.

(** ** Building the sites *)

Section Building.
Variable w : World.
Hypothesis Hctor : ctors_ok w.

Lemma append_site_ok s st :
  append_site w s st
  = (mk_state (trace st) (sites st ++ [s]) (runner_sites st), Ok tt).
Proof. unfold append_site. rewrite Hctor. reflexivity. Qed.

(** A loop of [append] calls extends [sites] by the image of the loop's
    sequence. *)
Lemma for_each_append {A} (f : A -> Site) l st :
  for_each l (fun x => append_site w (f x)) st
  = (mk_state (trace st) (sites st ++ map f l) (runner_sites st), Ok tt).
Proof.
  revert st. induction l as [|x l IH]; intros st; simpl.
  - unfold ret. rewrite app_nil_r, state_eta. reflexivity.
  - rewrite (bind_ok _ _ _ _ _ (append_site_ok (f x) st)).
    rewrite IH. simpl. rewrite <- app_assoc. reflexivity.
Qed.

Lemma build_tcp a st :
  match host a with
  | Single h => append_site w (tcp_site a (Some h))
  | Sequence hs =>
      for_each hs (fun h => append_site w (tcp_site a (Some h)))
  | Absent =>
      if (is_none (path a) && is_none (sock a)) || opt_is_some (port a)
      then append_site w (tcp_site a None)
      else ret tt
  end st
  = (mk_state (trace st) (sites st ++ spec_rule1 a ++ spec_rule2 a)
              (runner_sites st), Ok tt).
Proof.
  unfold spec_rule1, spec_rule2. destruct (host a) as [|h|hs]; simpl.
  - destruct ((is_none (path a) && is_none (sock a)) || opt_is_some (port a)).
    + apply append_site_ok.
    + unfold ret. rewrite app_nil_r, state_eta. reflexivity.
  - apply append_site_ok.
  - rewrite app_nil_r. apply (for_each_append (fun h => tcp_site a (Some h))).
Qed.

Lemma build_each {A} (f : A -> Site) (x : pyarg A) st :
  match x with
  | Absent => ret tt
  | Single p => append_site w (f p)
  | Sequence ps => for_each ps (fun p => append_site w (f p))
  end st
  = (mk_state (trace st) (sites st ++ map f (elements x)) (runner_sites st),
     Ok tt).
Proof.
  destruct x as [|p|ps]; simpl.
  - unfold ret. rewrite app_nil_r, state_eta. reflexivity.
  - apply append_site_ok.
  - apply for_each_append.
Qed.

(** The building phase appends the endpoint set of section 4.1 to
    [sites] and touches nothing else. *)
Lemma build_sites_spec a st :
  build_sites w a st
  = (mk_state (trace st) (sites st ++ spec_endpoint_set a) (runner_sites st),
     Ok tt).
Proof.
  unfold build_sites.
  rewrite (bind_ok _ _ _ _ _ (build_tcp a st)).
  rewrite (bind_ok _ _ _ _ _ (build_each (unix_site a) (path a) _)).
  rewrite (build_each (sock_site a) (sock a)). simpl.
  unfold spec_endpoint_set, spec_rule3, spec_rule4.
  rewrite <- !app_assoc. reflexivity.
Qed.

Lemma sites_built_spec a : sites_built w a = spec_endpoint_set a.
Proof. unfold sites_built. rewrite build_sites_spec. reflexivity. Qed.
End Building.

(** ** The endpoint set built by [run_app] *)

(** C1.  Whatever [host], [port], [path] and [sock] are, the list of sites
    [run_app] builds is the union of the endpoints of the rules of section
    4.1 that match: one TCP site for a host string, one per element for a
    sequence of hosts, all on the given port; the one wildcard TCP site
    when host, path and sock are absent; one Unix site and no TCP site for
    a path string with no host and no port; one Unix site per path and one
    socket site per handle, on top of the rest. *)
Theorem build_sites_is_endpoint_set (w : World) (a : run_args) :
  ctors_ok w ->
  build_sites w a st0 = (mk_state [] (spec_endpoint_set a) [], Ok tt)
  /\ (forall h, host a = Single h ->
        filter is_tcp (sites_built w a) = [tcp_site a (Some h)])
  /\ (forall hs, host a = Sequence hs ->
        filter is_tcp (sites_built w a)
        = map (fun h => TCPSite (Some h) (port a) (kwargs_of a)
                                (reuse_address a) (reuse_port a)) hs)
  /\ (host a = Absent -> path a = Absent -> sock a = Absent ->
        sites_built w a = [tcp_site a None])
  /\ (forall p, host a = Absent -> port a = None -> path a = Single p ->
        filter is_unix (sites_built w a) = [unix_site a p]
        /\ filter is_tcp (sites_built w a) = [])
  /\ filter is_unix (sites_built w a) = map (unix_site a) (elements (path a))
  /\ filter is_sock (sites_built w a) = map (sock_site a) (elements (sock a)).
Proof.
  intros Hc. rewrite (sites_built_spec w Hc).
  split; [apply (build_sites_spec w Hc)|].
  rewrite endpoint_set_tcp, endpoint_set_unix, endpoint_set_sock.
  unfold spec_endpoint_set, spec_rule1, spec_rule2, spec_rule3, spec_rule4.
  split; [|split; [|split; [|split; [|split]]]].
  - intros h Hh. rewrite Hh. reflexivity.
  - intros hs Hh. rewrite Hh. simpl. apply app_nil_r.
  - intros Hh Hp Hs. rewrite Hh, Hp, Hs. reflexivity.
  - intros p Hh Hport Hp. rewrite Hh, Hport, Hp. split; reflexivity.
  - reflexivity.
  - reflexivity.
Qed.

Lemma build_sites_is_endpoint_set_witness :
  ctors_ok w_quiet
  /\ sites_built w_quiet a_three_hosts
     = [tcp_site a_three_hosts (Some "a"); tcp_site a_three_hosts (Some "b");
        tcp_site a_three_hosts (Some "c")].
Proof.
  assert (Hc : ctors_ok w_quiet) by (intros s; reflexivity).
  split; [exact Hc|].
  pose proof (build_sites_is_endpoint_set w_quiet a_three_hosts Hc) as [H _].
  unfold sites_built. rewrite H. reflexivity.
Defined.

(** The rules of section 4.1 contribute no endpoint exactly in the cases
    of [builds_nothing]. *)
Lemma endpoint_set_nil_iff a : spec_endpoint_set a = [] <-> builds_nothing a.
Proof.
  unfold builds_nothing, spec_endpoint_set, spec_rule1, spec_rule2,
    spec_rule3, spec_rule4.
  split.
  - intros H. apply app_eq_nil in H as [H1 H].
    apply app_eq_nil in H as [H2 H]. apply app_eq_nil in H as [H3 H4].
    apply map_eq_nil in H3, H4. split; [exact H3|]. split; [exact H4|].
    destruct (host a) as [|h|[|h hs]]; simpl in *; try discriminate; auto.
    right. destruct (port a); simpl in *.
    + rewrite orb_true_r in H2. discriminate.
    + rewrite orb_false_r in H2.
      destruct (is_none (path a) && is_none (sock a)); [discriminate|auto].
  - intros (Hp & Hs & [Hh|(Hh & Hport & Hps)]); rewrite Hp, Hs, Hh; simpl.
    + reflexivity.
    + rewrite Hport, Hps. reflexivity.
Qed.

(** C2, as the code has it.  The list of sites built is not empty, except
    when path and sock give no element and either host is an empty
    sequence, or host and port are absent while a path or a sock is
    supplied: then, and only then, it is empty.  When host, path and sock
    are all absent it is the one TCP site on the wildcard host with the
    port passed on as given. *)
Theorem sites_built_nonempty (w : World) (a : run_args) :
  ctors_ok w ->
  (sites_built w a <> [] <-> ~ builds_nothing a)
  /\ (builds_nothing a -> sites_built w a = [])
  /\ (host a = Absent -> path a = Absent -> sock a = Absent ->
        sites_built w a
        = [TCPSite None (port a) (kwargs_of a)
                   (reuse_address a) (reuse_port a)]).
Proof.
  intros Hc. rewrite (sites_built_spec w Hc).
  split; [|split].
  - split.
    + intros Hne Hb. apply Hne. apply endpoint_set_nil_iff. exact Hb.
    + intros Hn Hs. apply Hn. apply endpoint_set_nil_iff. exact Hs.
  - apply endpoint_set_nil_iff.
  - intros Eh Ep Es.
    unfold spec_endpoint_set, spec_rule1, spec_rule2, spec_rule3, spec_rule4.
    rewrite Eh, Ep, Es. reflexivity.
Qed.

Lemma sites_built_nonempty_witness :
  sites_built w_quiet (run_app_defaults AppReady (Single "a") None (Sequence []))
  <> []
  /\ sites_built w_quiet a_wildcard
     = [TCPSite None (Some 9%Z) (mk_kwargs (60 # 1)%Q None 128) None None].
Proof.
  assert (Hc : ctors_ok w_quiet) by (intros s; reflexivity).
  split.
  - apply (proj1 (sites_built_nonempty w_quiet
                    (run_app_defaults AppReady (Single "a") None (Sequence []))
                    Hc)).
    intros (_ & _ & [H|(H & _)]); discriminate.
  - apply (proj2 (proj2 (sites_built_nonempty w_quiet a_wildcard Hc)));
      reflexivity.
Defined.

(** C2 fails as stated: an empty sequence of hosts, with no path and no
    socket, builds no site at all. *)
Lemma empty_host_sequence_builds_no_site :
  build_sites w_quiet a_no_hosts st0 = (st0, Ok tt)
  /\ sites_built w_quiet a_no_hosts = [].
Proof. split; reflexivity. Qed.

(** C3.  With no host and a port, the wildcard TCP site on that port is
    built, whatever path and sock are, next to the Unix and socket sites;
    with no host and no port but a path or a socket, no TCP site is
    built. *)
Theorem wildcard_site_follows_port (w : World) (a : run_args) :
  ctors_ok w ->
  host a = Absent ->
  (forall p, port a = Some p ->
     sites_built w a
     = TCPSite None (Some p) (kwargs_of a) (reuse_address a) (reuse_port a)
       :: map (unix_site a) (elements (path a))
       ++ map (sock_site a) (elements (sock a)))
  /\ (port a = None -> is_none (path a) = false \/ is_none (sock a) = false ->
      filter is_tcp (sites_built w a) = []
      /\ sites_built w a
         = map (unix_site a) (elements (path a))
           ++ map (sock_site a) (elements (sock a))).
Proof.
  intros Hc Hh. rewrite (sites_built_spec w Hc).
  rewrite endpoint_set_tcp.
  unfold spec_endpoint_set, spec_rule1, spec_rule2, spec_rule3, spec_rule4,
    tcp_site.
  rewrite Hh. simpl. split.
  - intros p Hp. rewrite Hp. simpl. rewrite orb_true_r. reflexivity.
  - intros Hp Hps. rewrite Hp. simpl. rewrite orb_false_r.
    assert (E : is_none (path a) && is_none (sock a) = false).
    { destruct Hps as [E|E]; rewrite E; [reflexivity|apply andb_false_r]. }
    rewrite E. split; reflexivity.
Qed.

Lemma wildcard_site_follows_port_witness :
  sites_built w_quiet
    (run_app_defaults AppReady Absent (Some 9%Z) (Single "/x"))
  = [TCPSite None (Some 9%Z) (mk_kwargs (60 # 1)%Q None 128) None None;
     UnixSite "/x" (mk_kwargs (60 # 1)%Q None 128)]
  /\ filter is_tcp
       (sites_built w_quiet (run_app_defaults AppReady Absent None (Single "/x")))
     = [].
Proof.
  assert (Hc : ctors_ok w_quiet) by (intros s; reflexivity).
  split.
  - apply (proj1 (wildcard_site_follows_port w_quiet
             (run_app_defaults AppReady Absent (Some 9%Z) (Single "/x"))
             Hc eq_refl) 9%Z eq_refl).
  - apply (proj2 (wildcard_site_follows_port w_quiet
             (run_app_defaults AppReady Absent None (Single "/x"))
             Hc eq_refl) eq_refl (or_introl eq_refl)).
Defined.

(** ** Traces *)

Lemma count_cleanup_app tr1 tr2 :
  count_cleanup (tr1 ++ tr2) = count_cleanup tr1 + count_cleanup tr2.
Proof. unfold count_cleanup. rewrite filter_app, length_app. reflexivity. Qed.

Lemma started_app tr1 tr2 : started (tr1 ++ tr2) = started tr1 ++ started tr2.
Proof. apply flat_map_app. Qed.

Lemma stopped_app tr1 tr2 : stopped (tr1 ++ tr2) = stopped tr1 ++ stopped tr2.
Proof. apply flat_map_app. Qed.

Lemma start_trace_app tr1 tr2 :
  start_trace (tr1 ++ tr2) = start_trace tr1 ++ start_trace tr2.
Proof. apply filter_app. Qed.

(** Events that all satisfy [ok] leave no trace under a filter that [ok]
    excludes. *)
Lemma filter_excluded (ok p : Event -> bool) evs :
  (forall e, ok e = true -> p e = false) ->
  forallb ok evs = true -> filter p evs = [].
Proof.
  intros Hex. induction evs as [|e evs IH]; simpl; [reflexivity|].
  intros H. apply andb_true_iff in H as [He Hevs].
  rewrite (Hex e He). auto.
Qed.

Lemma flat_map_excluded {B} (ok : Event -> bool) (f : Event -> list B) evs :
  (forall e, ok e = true -> f e = []) ->
  forallb ok evs = true -> flat_map f evs = [].
Proof.
  intros Hex. induction evs as [|e evs IH]; simpl; [reflexivity|].
  intros H. apply andb_true_iff in H as [He Hevs].
  rewrite (Hex e He). auto.
Qed.

Lemma existsb_excluded (ok p : Event -> bool) evs :
  (forall e, ok e = true -> p e = false) ->
  forallb ok evs = true -> existsb p evs = false.
Proof.
  intros Hex. induction evs as [|e evs IH]; simpl; [reflexivity|].
  intros H. apply andb_true_iff in H as [He Hevs].
  rewrite (Hex e He). auto.
Qed.

Lemma started_start_events l : started (start_events l) = l.
Proof. induction l as [|s l IH]; simpl; [reflexivity|]. now rewrite IH. Qed.

Lemma start_trace_start_events l :
  start_trace (start_events l) = start_events l.
Proof.
  unfold start_trace.
  induction l as [|s l IH]; simpl; [reflexivity|]. now rewrite IH.
Qed.

Lemma stopped_start_events l : stopped (start_events l) = [].
Proof. induction l as [|s l IH]; simpl; [reflexivity|]. exact IH. Qed.

Lemma count_cleanup_start_events l : count_cleanup (start_events l) = 0.
Proof. induction l as [|s l IH]; simpl; [reflexivity|]. exact IH. Qed.

Lemma stopped_stops l : stopped (map EvStop l) = l.
Proof. induction l as [|s l IH]; simpl; [reflexivity|]. now rewrite IH. Qed.

Lemma started_stops l : started (map EvStop l) = [].
Proof. induction l as [|s l IH]; simpl; [reflexivity|]. exact IH. Qed.

Lemma start_trace_stops l : start_trace (map EvStop l) = [].
Proof. induction l as [|s l IH]; simpl; [reflexivity|]. exact IH. Qed.

Lemma count_cleanup_stops l : count_cleanup (map EvStop l) = 0.
Proof. induction l as [|s l IH]; simpl; [reflexivity|]. exact IH. Qed.

(** ** External calls, cleanup and [finally] *)

Lemma call_ok e st :
  call e None st
  = (mk_state (trace st ++ [e]) (sites st) (runner_sites st), Ok tt).
Proof. reflexivity. Qed.

Lemma call_raise e x st :
  call e (Some x) st
  = (mk_state (trace st ++ [e]) (sites st) (runner_sites st), Raise x).
Proof. reflexivity. Qed.

Lemma for_each_stop l st :
  for_each l (fun s => emit (EvStop s)) st
  = (mk_state (trace st ++ map EvStop l) (sites st) (runner_sites st), Ok tt).
Proof.
  revert st. induction l as [|s l IH]; intros st; simpl.
  - unfold ret. rewrite app_nil_r, state_eta. reflexivity.
  - unfold bind at 1. simpl. rewrite IH. simpl.
    rewrite <- app_assoc. reflexivity.
Qed.

(** [cleanup] stops the registered sites in turn and ends as the world
    says. *)
Lemma cleanup_spec w st :
  cleanup w st
  = (mk_state (trace st ++ EvCleanup :: map EvStop (runner_sites st))
              (sites st) (runner_sites st),
     match runner_cleanup w with None => Ok tt | Some e => Raise e end).
Proof.
  unfold cleanup, bind at 1. simpl.
  unfold bind at 1, get_runner_sites. simpl.
  unfold bind at 1. rewrite for_each_stop. simpl.
  rewrite <- app_assoc. simpl.
  destruct (runner_cleanup w); reflexivity.
Qed.

(** [finally] runs [cleanup] after the body, however the body ends. *)
Lemma try_finally_cleanup {A} w (body : M A) st :
  try_finally body (cleanup w) st
  = (mk_state (trace (fst (body st))
               ++ EvCleanup :: map EvStop (runner_sites (fst (body st))))
              (sites (fst (body st))) (runner_sites (fst (body st))),
     match runner_cleanup w with
     | None => snd (body st)
     | Some e => Raise e
     end).
Proof.
  unfold try_finally. destruct (body st) as [st1 r]. rewrite cleanup_spec.
  simpl. destruct (runner_cleanup w); reflexivity.
Qed.

(** ** Starting the sites in turn *)

Lemma starts_ok_tail w i0 s l :
  starts_ok w i0 (s :: l) -> site_start w i0 s = None /\ starts_ok w (S i0) l.
Proof.
  intros H. split.
  - specialize (H 0 s eq_refl). now rewrite Nat.add_0_r in H.
  - intros i x Hx. specialize (H (S i) x Hx).
    now rewrite Nat.add_succ_r in H.
Qed.

Lemma start_ok w i s st :
  site_start w i s = None ->
  start w i s st
  = (mk_state (trace st ++ [EvStart s; EvSettled s None]) (sites st)
              (runner_sites st ++ [s]), Ok tt).
Proof.
  intros H. unfold start, bind, emit. simpl. rewrite H.
  rewrite <- app_assoc. reflexivity.
Qed.

Lemma start_raise w i s e st :
  site_start w i s = Some e ->
  start w i s st
  = (mk_state (trace st ++ [EvStart s; EvSettled s (Some e)]) (sites st)
              (runner_sites st), Raise e).
Proof.
  intros H. unfold start, bind, emit. simpl. rewrite H.
  rewrite <- app_assoc. reflexivity.
Qed.

(** When every site starts, the loop enters and completes the starts in
    the order of the list and registers every site. *)
Lemma starts_all_ok w l : forall i0 st,
  starts_ok w i0 l ->
  for_each_from i0 l (start w) st
  = (mk_state (trace st ++ start_events l) (sites st) (runner_sites st ++ l),
     Ok tt).
Proof.
  induction l as [|s l IH]; intros i0 st H; simpl.
  - unfold ret. rewrite !app_nil_r, state_eta. reflexivity.
  - apply starts_ok_tail in H as [Hs Hl].
    rewrite (bind_ok _ _ _ _ _ (start_ok w i0 s st Hs)).
    rewrite (IH _ _ Hl). simpl. rewrite <- !app_assoc. reflexivity.
Qed.

(** When the site after [pre] is the first that fails, the loop stops
    there: the sites of [post] are never started. *)
Lemma starts_fail w pre x post e : forall i0 st,
  starts_ok w i0 pre ->
  site_start w (i0 + List.length pre) x = Some e ->
  for_each_from i0 (pre ++ x :: post) (start w) st
  = (mk_state (trace st ++ start_events pre ++ [EvStart x; EvSettled x (Some e)])
              (sites st) (runner_sites st ++ pre), Raise e).
Proof.
  induction pre as [|s pre IH]; intros i0 st Hpre Hx; simpl.
  - rewrite Nat.add_0_r in Hx.
    rewrite (bind_raise _ _ _ _ _ (start_raise w i0 x e st Hx)).
    rewrite app_nil_r. reflexivity.
  - apply starts_ok_tail in Hpre as [Hs Hl].
    rewrite (bind_ok _ _ _ _ _ (start_ok w i0 s st Hs)).
    simpl in Hx. rewrite <- Nat.add_succ_comm in Hx.
    rewrite (IH _ _ Hl Hx). simpl. rewrite <- !app_assoc. reflexivity.
Qed.

(** Either every site starts, or there is a first one that fails. *)
Lemma starts_dichotomy w l : forall i0,
  starts_ok w i0 l
  \/ exists pre x post e,
       l = pre ++ x :: post /\ starts_ok w i0 pre
       /\ site_start w (i0 + List.length pre) x = Some e.
Proof.
  induction l as [|s l IH]; intros i0.
  - left. intros [|i] x Hx; discriminate.
  - destruct (site_start w i0 s) as [e|] eqn:Hs.
    + right. exists [], s, l, e. repeat split.
      * intros [|i] x Hx; discriminate.
      * simpl. now rewrite Nat.add_0_r.
    + destruct (IH (S i0)) as [Hl | (pre & x & post & e & El & Hpre & Hx)].
      * left. intros [|i] x Hx; simpl in Hx.
        -- injection Hx as <-. now rewrite Nat.add_0_r.
        -- rewrite Nat.add_succ_r. apply (Hl i x Hx).
      * right. exists (s :: pre), x, post, e. repeat split.
        -- simpl. now rewrite El.
        -- intros [|i] y Hy; simpl in Hy.
           ++ injection Hy as <-. now rewrite Nat.add_0_r.
           ++ rewrite Nat.add_succ_r. apply (Hpre i y Hy).
        -- simpl. now rewrite <- Nat.add_succ_comm.
Qed.

(** ** Which events a computation can emit *)

Section EmitsOnly.
Variable ok : Event -> bool.

Lemma eo_silent {A} (m : M A) :
  (forall st, trace (fst (m st)) = trace st) -> emits_only ok m.
Proof.
  intros H st st' r E. exists []. specialize (H st). rewrite E in H.
  simpl in H. rewrite app_nil_r. auto.
Qed.

Lemma eo_ret {A} (a : A) : emits_only ok (ret a).
Proof. apply eo_silent. reflexivity. Qed.

Lemma eo_raise {A} e : emits_only ok (@raise A e).
Proof. apply eo_silent. reflexivity. Qed.

Lemma eo_emit e : ok e = true -> emits_only ok (emit e).
Proof.
  intros He st st' r E. injection E as <- _. exists [e]. simpl.
  rewrite He. auto.
Qed.

Lemma eo_bind {A B} (m : M A) (k : A -> M B) :
  emits_only ok m -> (forall a, emits_only ok (k a)) ->
  emits_only ok (bind m k).
Proof.
  intros Hm Hk st st' r E. unfold bind in E.
  destruct (m st) as [st1 [a|e]] eqn:Em.
  - destruct (Hm _ _ _ Em) as (ev1 & T1 & F1).
    destruct (Hk a _ _ _ E) as (ev2 & T2 & F2).
    exists (ev1 ++ ev2). rewrite T2, T1, <- app_assoc, forallb_app, F1, F2.
    auto.
  - injection E as <- _. apply (Hm _ _ _ Em).
Qed.

Lemma eo_call e r : ok e = true -> emits_only ok (call e r).
Proof.
  intros He. apply eo_bind; [apply eo_emit, He|].
  intros _. destruct r; [apply eo_raise|apply eo_ret].
Qed.

Lemma eo_for_each {A} (l : list A) (body : A -> M unit) :
  (forall x, emits_only ok (body x)) -> emits_only ok (for_each l body).
Proof.
  intros H. induction l as [|x l IH]; simpl; [apply eo_ret|].
  apply eo_bind; auto.
Qed.

Lemma eo_for_each_from {A} (l : list A) (body : nat -> A -> M unit) :
  (forall i x, emits_only ok (body i x)) ->
  forall i0, emits_only ok (for_each_from i0 l body).
Proof.
  intros H. induction l as [|x l IH]; intros i0; simpl; [apply eo_ret|].
  apply eo_bind; auto.
Qed.

Lemma eo_try_except (m : M unit) :
  emits_only ok m -> emits_only ok (try_except_interrupt m).
Proof.
  intros Hm st st' r E. unfold try_except_interrupt in E.
  destruct (m st) as [st1 [a|e]] eqn:Em.
  - injection E as <- _. apply (Hm _ _ _ Em).
  - destruct (is_interrupt e); injection E as <- _; apply (Hm _ _ _ Em).
Qed.

Lemma eo_append_site w s : emits_only ok (append_site w s).
Proof.
  apply eo_silent. intros st. unfold append_site.
  destruct (site_ctor w s); reflexivity.
Qed.

Lemma eo_build_each {A} w (f : A -> Site) (x : pyarg A) :
  emits_only ok
    match x with
    | Absent => ret tt
    | Single p => append_site w (f p)
    | Sequence ps => for_each ps (fun p => append_site w (f p))
    end.
Proof.
  destruct x; [apply eo_ret|apply eo_append_site|].
  apply eo_for_each. intros p. apply eo_append_site.
Qed.

(** Building the sites emits nothing, also when a constructor raises. *)
Lemma eo_build_sites w a : emits_only ok (build_sites w a).
Proof.
  unfold build_sites. apply eo_bind; [|intros _; apply eo_bind].
  - destruct (host a); [|apply eo_append_site|].
    + destruct ((is_none (path a) && is_none (sock a))
                || opt_is_some (port a));
        [apply eo_append_site|apply eo_ret].
    + apply eo_for_each. intros h. apply eo_append_site.
  - apply eo_build_each.
  - intros _. apply eo_build_each.
Qed.

Hypothesis ok_start : forall e, is_start_event e = true -> ok e = true.
Hypothesis ok_serve : forall e, is_serve_event e = true -> ok e = true.

Lemma eo_start w i s : emits_only ok (start w i s).
Proof.
  intros st st' r E. unfold start, bind, emit in E. simpl in E.
  exists [EvStart s; EvSettled s (site_start w i s)].
  destruct (site_start w i s); injection E as <- _; simpl;
    rewrite <- app_assoc, !ok_start by reflexivity; auto.
Qed.

Lemma eo_serve w a : emits_only ok (serve w a).
Proof.
  unfold serve. apply eo_try_except. apply eo_bind.
  - destruct (print a) as [pr|]; [|apply eo_ret].
    apply eo_bind; [apply eo_silent; reflexivity|].
    intros regs. apply eo_call. apply ok_serve. reflexivity.
  - intros _. apply eo_call. apply ok_serve. reflexivity.
Qed.

(** The guarded body emits starts, the report and the serve-wait only. *)
Lemma eo_body w a :
  emits_only ok
    (build_sites w a ;;
     ss <- get_sites ;;
     for_each_from 0 ss (start w) ;;
     serve w a).
Proof.
  apply eo_bind; [apply eo_build_sites|]. intros _.
  apply eo_bind; [apply eo_silent; reflexivity|]. intros ss.
  apply eo_bind; [|intros _; apply eo_serve].
  apply eo_for_each_from. intros i x. apply eo_start.
Qed.
End EmitsOnly.

Lemma start_is_body e : is_start_event e = true -> is_body_event e = true.
Proof. destruct e; simpl; auto. Qed.

Lemma serve_is_body e : is_serve_event e = true -> is_body_event e = true.
Proof. destruct e; simpl; auto. Qed.

Lemma eo_closing w : emits_only is_closing_event (closing w).
Proof.
  unfold closing. apply eo_bind; [|intros _; apply eo_call; reflexivity].
  destruct (PY_36 w); [|apply eo_ret].
  destruct (has_shutdown_asyncgens w); [|apply eo_ret].
  apply eo_call. reflexivity.
Qed.

(** ** The shape of a run *)

(** Once the application is there and [setup] has returned, [run_app]
    runs the guarded body. *)
Lemma run_app_after_setup w a st :
  app_ok a -> runner_setup w = None ->
  run_app w a st
  = (guarded w a ;; closing w)
      (mk_state (trace st ++ await_events a ++ [EvSetup]) [] []).
Proof.
  intros Ha Hs. unfold run_app, setup, await_events.
  destruct Ha as [E|E]; rewrite E, Hs.
  - unfold bind at 1. simpl. unfold bind at 1. simpl.
    unfold bind at 1. simpl. unfold bind at 1. simpl. reflexivity.
  - unfold bind at 1. simpl. unfold bind at 1. simpl.
    unfold bind at 1. simpl. unfold bind at 1. simpl.
    rewrite <- app_assoc. reflexivity.
Qed.

(** The trace of a run in which [setup] returned: the body's events, then
    cleanup with its stops, then the closing events. *)
Lemma run_app_shape w a st :
  app_ok a -> runner_setup w = None ->
  exists body regs close,
    trace (fst (run_app w a st))
    = (trace st ++ await_events a ++ [EvSetup]) ++ body
      ++ EvCleanup :: map EvStop regs ++ close
    /\ forallb is_body_event body = true
    /\ forallb is_closing_event close = true.
Proof.
  intros Ha Hs. rewrite (run_app_after_setup w a st Ha Hs).
  set (st1 := mk_state _ [] []).
  unfold bind, guarded. rewrite try_finally_cleanup.
  destruct ((build_sites w a ;; ss <- get_sites ;;
             for_each_from 0 ss (start w) ;; serve w a) st1)
    as [st2 r] eqn:Eb.
  destruct (eo_body is_body_event start_is_body serve_is_body w a _ _ _ Eb)
    as (body & Tb & Fb).
  simpl. exists body, (runner_sites st2).
  destruct (runner_cleanup w) as [e|].
  - exists []. simpl. rewrite Tb, app_nil_r. subst st1. simpl.
    rewrite <- !app_assoc. auto.
  - destruct r as [[]|e].
    + destruct (closing w _) as [st3 r3] eqn:Ec.
      destruct (eo_closing w _ _ _ Ec) as (close & Tc & Fc).
      exists close. simpl in *. rewrite Tc, Tb. subst st1. simpl.
      rewrite <- !app_assoc. auto.
    + exists []. simpl. rewrite Tb, app_nil_r. subst st1. simpl.
      rewrite <- !app_assoc. auto.
Qed.

Lemma count_cleanup_excluded ok evs :
  (forall e, ok e = true -> is_cleanup e = false) ->
  forallb ok evs = true -> count_cleanup evs = 0.
Proof.
  intros Hex H. unfold count_cleanup.
  now rewrite (filter_excluded ok is_cleanup evs Hex H).
Qed.

Lemma body_not_cleanup e : is_body_event e = true -> is_cleanup e = false.
Proof. destruct e; simpl; auto; discriminate. Qed.

Lemma closing_not_cleanup e :
  is_closing_event e = true -> is_cleanup e = false.
Proof. destruct e; simpl; auto; discriminate. Qed.

Lemma count_cleanup_await a : count_cleanup (await_events a) = 0.
Proof. unfold await_events. destruct (app a); reflexivity. Qed.

(** ** Cleanup *)

(** C4, as the code has it.  In every run in which [runner.setup()] has
    returned, however the run ends afterwards (a constructor, a start, the
    report or the serve-wait raising, or a normal return),
    [runner.cleanup()] is called exactly once, after every start and after
    the serve-wait. *)
Theorem cleanup_once_after_setup (w : World) (a : run_args) :
  app_ok a -> runner_setup w = None ->
  count_cleanup (trace (fst (run_app w a st0))) = 1
  /\ exists before after,
       trace (fst (run_app w a st0)) = before ++ EvCleanup :: after
       /\ count_cleanup before = 0 /\ count_cleanup after = 0
       /\ started after = [] /\ served after = false.
Proof.
  intros Ha Hs.
  destruct (run_app_shape w a st0 Ha Hs) as (body & regs & close & T & Fb & Fc).
  simpl in T.
  assert (Cx : count_cleanup (await_events a ++ [EvSetup]) = 0).
  { now rewrite count_cleanup_app, count_cleanup_await. }
  assert (Cb : count_cleanup body = 0)
    by exact (count_cleanup_excluded _ body body_not_cleanup Fb).
  assert (Ca : count_cleanup (map EvStop regs ++ close) = 0).
  { rewrite count_cleanup_app, count_cleanup_stops.
    now rewrite (count_cleanup_excluded _ close closing_not_cleanup Fc). }
  split.
  - rewrite T.
    change (EvCleanup :: map EvStop regs ++ close)
      with ([EvCleanup] ++ (map EvStop regs ++ close)).
    rewrite !count_cleanup_app in *. rewrite Cb. simpl in *. lia.
  - exists ((await_events a ++ [EvSetup]) ++ body), (map EvStop regs ++ close).
    rewrite T, <- !app_assoc. repeat split; auto.
    + rewrite !count_cleanup_app in *. simpl in *. lia.
    + rewrite started_app, started_stops. simpl.
      apply (flat_map_excluded is_closing_event); auto.
      intros e. destruct e; simpl; auto; discriminate.
    + unfold served. rewrite existsb_app.
      rewrite (existsb_excluded is_closing_event _ close); auto.
      * rewrite orb_false_r. clear. induction regs; simpl; auto.
      * intros e. destruct e; simpl; auto; discriminate.
Qed.

Lemma cleanup_once_after_setup_witness :
  count_cleanup (trace (fst (run_app w_second_fails a_three_hosts st0))) = 1.
Proof.
  apply (cleanup_once_after_setup w_second_fails a_three_hosts).
  - left. reflexivity.
  - reflexivity.
Defined.

(** C4 fails as stated: [setup] is called before the [try] statement, so a
    run in which it raises ends without any call of [cleanup]. *)
Lemma setup_error_leaves_cleanup_uncalled :
  run_app w_setup_fails a_three_hosts st0
  = (mk_state [EvSetup] [] [], Raise (Exception "setup"))
  /\ count_cleanup (trace (fst (run_app w_setup_fails a_three_hosts st0))) <> 1.
Proof. split; [reflexivity|]. simpl. discriminate. Qed.

(** C5, as the code has it.  When [runner.setup()] raises, [run_app]
    builds and starts no site and the error reaches the caller; since
    [setup] runs before the [try] statement, [cleanup] is not called. *)
Theorem setup_error_starts_nothing (w : World) (a : run_args) (e : exn) :
  app_ok a -> runner_setup w = Some e ->
  run_app w a st0 = (mk_state (await_events a ++ [EvSetup]) [] [], Raise e)
  /\ started (trace (fst (run_app w a st0))) = []
  /\ count_cleanup (trace (fst (run_app w a st0))) = 0.
Proof.
  intros Ha Hs.
  assert (E : run_app w a st0
              = (mk_state (await_events a ++ [EvSetup]) [] [], Raise e)).
  { unfold run_app, setup, await_events.
    destruct Ha as [E|E]; rewrite E, Hs; reflexivity. }
  rewrite E. simpl. unfold await_events.
  destruct (app a); repeat split; reflexivity.
Qed.

Lemma setup_error_starts_nothing_witness :
  run_app w_setup_fails a_wildcard st0
  = (mk_state [EvSetup] [] [], Raise (Exception "setup")).
Proof.
  apply (setup_error_starts_nothing w_setup_fails a_wildcard
           (Exception "setup")).
  - left. reflexivity.
  - reflexivity.
Defined.

(** C5 fails as stated: when [setup] raises, no [cleanup] is attempted. *)
Lemma setup_error_attempts_no_cleanup :
  snd (run_app w_setup_fails a_wildcard st0) = Raise (Exception "setup")
  /\ ~ In EvCleanup (trace (fst (run_app w_setup_fails a_wildcard st0))).
Proof.
  split; [reflexivity|]. simpl. intros [H|[]]. discriminate.
Qed.

(** ** Runs that reach the start loop *)

(** The report and the serve-wait register and unregister nothing. *)
Lemma serve_keeps_runner_sites w a st :
  runner_sites (fst (serve w a st)) = runner_sites st.
Proof.
  unfold serve, try_except_interrupt, bind, call, emit, get_runner_sites,
    ret, raise.
  destruct (print a) as [pr|]; simpl.
  - destruct (pr _) as [e|]; simpl.
    + destruct (is_interrupt e); reflexivity.
    + destruct (run_forever w) as [e|]; simpl;
        [destruct (is_interrupt e)|]; reflexivity.
  - destruct (run_forever w) as [e|]; simpl;
      [destruct (is_interrupt e)|]; reflexivity.
Qed.

Section Started.
Variable w : World.
Variable a : run_args.
Hypothesis Hctor : ctors_ok w.

(** When every site starts, the guarded body continues with the report
    and the serve-wait, all sites being registered. *)
Lemma body_all_started tr :
  starts_ok w 0 (sites_built w a) ->
  (build_sites w a ;;
   ss <- get_sites ;;
   for_each_from 0 ss (start w) ;;
   serve w a) (mk_state tr [] [])
  = serve w a (mk_state (tr ++ start_events (sites_built w a))
                        (sites_built w a) (sites_built w a)).
Proof.
  intros Hst. rewrite (sites_built_spec w Hctor) in *.
  rewrite (bind_ok _ _ _ _ _ (build_sites_spec w Hctor a _)). simpl.
  unfold bind at 1, get_sites. simpl.
  rewrite (bind_ok _ _ _ _ _ (starts_all_ok w _ 0 _ Hst)). reflexivity.
Qed.

(** When the site after [pre] is the first that fails to start, the body
    ends there with that error. *)
Lemma body_start_fails tr pre x post e :
  sites_built w a = pre ++ x :: post ->
  starts_ok w 0 pre ->
  site_start w (List.length pre) x = Some e ->
  (build_sites w a ;;
   ss <- get_sites ;;
   for_each_from 0 ss (start w) ;;
   serve w a) (mk_state tr [] [])
  = (mk_state (tr ++ start_events pre ++ [EvStart x; EvSettled x (Some e)])
              (sites_built w a) pre, Raise e).
Proof.
  intros Eb Hpre Hx. rewrite (sites_built_spec w Hctor) in *.
  rewrite (bind_ok _ _ _ _ _ (build_sites_spec w Hctor a _)). simpl.
  unfold bind at 1, get_sites. simpl. rewrite Eb.
  rewrite (bind_raise _ _ _ _ _ (starts_fail w pre x post e 0 _ Hpre Hx)).
  reflexivity.
Qed.

Hypothesis Happ : app_ok a.
Hypothesis Hsetup : runner_setup w = None.

(** The whole run when a start fails: cleanup stops the sites started so
    far, and the error (or that of cleanup) reaches the caller. *)
Lemma run_app_start_fails st pre x post e :
  sites_built w a = pre ++ x :: post ->
  starts_ok w 0 pre ->
  site_start w (List.length pre) x = Some e ->
  run_app w a st
  = (mk_state (trace st ++ await_events a ++ [EvSetup] ++ start_events pre
               ++ [EvStart x; EvSettled x (Some e)]
               ++ EvCleanup :: map EvStop pre)
              (sites_built w a) pre,
     Raise (match runner_cleanup w with None => e | Some e' => e' end)).
Proof.
  intros Eb Hpre Hx. rewrite (run_app_after_setup w a st Happ Hsetup).
  unfold bind, guarded. rewrite try_finally_cleanup.
  rewrite (body_start_fails _ pre x post e Eb Hpre Hx). simpl.
  rewrite <- !app_assoc. simpl.
  destruct (runner_cleanup w); reflexivity.
Qed.

(** The trace of a run in which every site starts. *)
Lemma run_app_all_started st :
  starts_ok w 0 (sites_built w a) ->
  exists sv close,
    trace (fst (run_app w a st))
    = (trace st ++ await_events a ++ [EvSetup]
       ++ start_events (sites_built w a))
      ++ sv ++ (EvCleanup :: map EvStop (sites_built w a)) ++ close
    /\ forallb is_serve_event sv = true
    /\ forallb is_closing_event close = true.
Proof.
  intros Hst. rewrite (run_app_after_setup w a st Happ Hsetup).
  unfold bind, guarded. rewrite try_finally_cleanup.
  rewrite (body_all_started _ Hst).
  destruct (serve w a _) as [st2 r] eqn:Es.
  destruct (eo_serve is_serve_event (fun e H => H) w a _ _ _ Es)
    as (sv & Ts & Fs).
  assert (Rs : runner_sites st2 = sites_built w a).
  { pose proof (serve_keeps_runner_sites w a
                  (mk_state ((trace st ++ await_events a ++ [EvSetup])
                             ++ start_events (sites_built w a))
                            (sites_built w a) (sites_built w a))) as K.
    rewrite Es in K. exact K. }
  simpl in *. exists sv. rewrite Rs.
  destruct (runner_cleanup w) as [e|].
  - exists []. simpl. rewrite Ts, app_nil_r, <- !app_assoc. auto.
  - destruct r as [[]|e].
    + destruct (closing w _) as [st3 r3] eqn:Ec.
      destruct (eo_closing w _ _ _ Ec) as (close & Tc & Fc).
      exists close. simpl in *. rewrite Tc, Ts, <- !app_assoc. auto.
    + exists []. simpl. rewrite Ts, app_nil_r, <- !app_assoc. auto.
Qed.
End Started.

Lemma existsb_start_events (p : Event -> bool) l :
  (forall s, p (EvStart s) = false) ->
  (forall s r, p (EvSettled s r) = false) ->
  existsb p (start_events l) = false.
Proof.
  intros H1 H2. induction l as [|s l IH]; simpl; [reflexivity|].
  now rewrite H1, H2, IH.
Qed.

Lemma existsb_stops (p : Event -> bool) l :
  (forall s, p (EvStop s) = false) -> existsb p (map EvStop l) = false.
Proof.
  intros H. induction l as [|s l IH]; simpl; [reflexivity|].
  now rewrite H, IH.
Qed.

Lemma existsb_await (p : Event -> bool) a :
  p EvAwaitApp = false -> existsb p (await_events a) = false.
Proof.
  intros H. unfold await_events. destruct (app a); simpl; [reflexivity|].
  now rewrite H.
Qed.

Lemma started_await a : started (await_events a) = [].
Proof. unfold await_events. destruct (app a); reflexivity. Qed.

Lemma stopped_await a : stopped (await_events a) = [].
Proof. unfold await_events. destruct (app a); reflexivity. Qed.

Lemma start_trace_await a : start_trace (await_events a) = [].
Proof. unfold await_events. destruct (app a); reflexivity. Qed.

Lemma served_split l :
  served l = true -> exists p q, l = p ++ EvRunForever :: q.
Proof.
  intros H. apply existsb_exists in H as (e & Hin & He).
  destruct e; try discriminate. apply in_split. exact Hin.
Qed.

Lemma serve_not_start e : is_serve_event e = true -> is_start_event e = false.
Proof. destruct e; simpl; auto; discriminate. Qed.

Lemma closing_not_start e :
  is_closing_event e = true -> is_start_event e = false.
Proof. destruct e; simpl; auto; discriminate. Qed.

Lemma closing_not_served e :
  is_closing_event e = true -> is_run_forever e = false.
Proof. destruct e; simpl; auto; discriminate. Qed.

(** Bring a trace to a chain of [++]: results are projected and every
    cons onto a list that is not empty becomes an append. *)
Ltac norm_trace :=
  cbn [fst snd trace st0]; rewrite ?app_nil_l;
  repeat match goal with
         | |- context [?e :: ?l] =>
             lazymatch l with
             | [] => fail
             | _ => change (e :: l) with ([e] ++ l)
             end
         end.

(** ** A start that fails *)

(** C7.  When one of the sites built fails to start, the sites before it,
    which did start, are stopped by the cleanup that follows, the sites
    after it are never started, neither the report nor the serve-wait
    happens, and the error reaches the caller (unless cleanup raises one
    of its own). *)
Theorem failed_start_is_cleaned_up (w : World) (a : run_args)
  (pre : list Site) (x : Site) (post : list Site) (e : exn) :
  app_ok a -> runner_setup w = None -> ctors_ok w ->
  sites_built w a = pre ++ x :: post ->
  starts_ok w 0 pre ->
  site_start w (List.length pre) x = Some e ->
  trace (fst (run_app w a st0))
  = await_events a ++ [EvSetup] ++ start_events pre
    ++ [EvStart x; EvSettled x (Some e)] ++ EvCleanup :: map EvStop pre
  /\ started (trace (fst (run_app w a st0))) = pre ++ [x]
  /\ stopped (trace (fst (run_app w a st0))) = pre
  /\ printed (trace (fst (run_app w a st0))) = false
  /\ served (trace (fst (run_app w a st0))) = false
  /\ snd (run_app w a st0)
     = Raise (match runner_cleanup w with None => e | Some e' => e' end).
Proof.
  intros Ha Hs Hc Eb Hpre Hx.
  rewrite (run_app_start_fails w a Hc Ha Hs st0 pre x post e Eb Hpre Hx).
  norm_trace. repeat apply conj; try reflexivity.
  - rewrite !started_app, started_await, started_start_events, started_stops.
    simpl. rewrite ?app_nil_r. reflexivity.
  - rewrite !stopped_app, stopped_await, stopped_start_events, stopped_stops.
    reflexivity.
  - unfold printed. rewrite !existsb_app, existsb_await by reflexivity.
    rewrite existsb_start_events, existsb_stops by reflexivity. reflexivity.
  - unfold served. rewrite !existsb_app, existsb_await by reflexivity.
    rewrite existsb_start_events, existsb_stops by reflexivity. reflexivity.
Qed.

Lemma failed_start_is_cleaned_up_witness :
  started (trace (fst (run_app w_second_fails a_three_hosts st0)))
  = [tcp_site a_three_hosts (Some "a"); tcp_site a_three_hosts (Some "b")]
  /\ stopped (trace (fst (run_app w_second_fails a_three_hosts st0)))
     = [tcp_site a_three_hosts (Some "a")]
  /\ printed (trace (fst (run_app w_second_fails a_three_hosts st0))) = false.
Proof.
  destruct (failed_start_is_cleaned_up w_second_fails a_three_hosts
              [tcp_site a_three_hosts (Some "a")]
              (tcp_site a_three_hosts (Some "b"))
              [tcp_site a_three_hosts (Some "c")]
              (Exception "bind"))
    as (_ & H1 & H2 & H3 & _).
  - left. reflexivity.
  - reflexivity.
  - intros s. reflexivity.
  - reflexivity.
  - intros [|[|i]] s Hs; try discriminate. reflexivity.
  - reflexivity.
  - auto.
Defined.

(** ** The order of the starts *)

(** C8, as the code has it.  The sites are started one after the other in
    the order of the list, each start completing before the next is
    entered, and the first start that fails ends the loop; the serve-wait
    is entered only when every site built has started, and after that. *)
Theorem starts_run_in_turn (w : World) (a : run_args) :
  app_ok a -> runner_setup w = None -> ctors_ok w ->
  ((starts_ok w 0 (sites_built w a)
    /\ start_trace (trace (fst (run_app w a st0)))
       = start_events (sites_built w a))
   \/ exists pre x post e,
        sites_built w a = pre ++ x :: post
        /\ starts_ok w 0 pre
        /\ site_start w (List.length pre) x = Some e
        /\ start_trace (trace (fst (run_app w a st0)))
           = start_events pre ++ [EvStart x; EvSettled x (Some e)]
        /\ served (trace (fst (run_app w a st0))) = false)
  /\ (served (trace (fst (run_app w a st0))) = true ->
      exists p q,
        trace (fst (run_app w a st0)) = p ++ EvRunForever :: q
        /\ start_trace p = start_events (sites_built w a)
        /\ start_trace q = []).
Proof.
  intros Ha Hs Hc.
  destruct (starts_dichotomy w (sites_built w a) 0)
    as [Hall | (pre & x & post & e & Eb & Hpre & Hx)].
  - destruct (run_app_all_started w a Hc Ha Hs st0 Hall)
      as (sv & close & T & Fs & Fc).
    rewrite T. norm_trace. split.
    + left. split; [exact Hall|].
      rewrite !start_trace_app, start_trace_await, start_trace_start_events.
      rewrite start_trace_stops. unfold start_trace.
      rewrite (filter_excluded _ _ sv serve_not_start Fs).
      rewrite (filter_excluded _ _ close closing_not_start Fc).
      simpl. rewrite ?app_nil_r. reflexivity.
    + unfold served. rewrite !existsb_app, existsb_await by reflexivity.
      rewrite existsb_start_events, existsb_stops by reflexivity.
      rewrite (existsb_excluded _ _ close closing_not_served Fc).
      simpl. rewrite !orb_false_r. intros Hsv.
      destruct (served_split sv Hsv) as (p' & q' & ->).
      rewrite forallb_app in Fs. apply andb_true_iff in Fs as [Fp Fq].
      simpl in Fq.
      exists ((await_events a ++ [EvSetup] ++ start_events (sites_built w a))
              ++ p'),
        (q' ++ [EvCleanup] ++ map EvStop (sites_built w a) ++ close).
      repeat apply conj.
      * rewrite <- !app_assoc. reflexivity.
      * rewrite !start_trace_app, start_trace_await, start_trace_start_events.
        unfold start_trace.
        rewrite (filter_excluded _ _ p' serve_not_start Fp).
        simpl. rewrite ?app_nil_r. reflexivity.
      * rewrite !start_trace_app, start_trace_stops. unfold start_trace.
        rewrite (filter_excluded _ _ q' serve_not_start Fq).
        rewrite (filter_excluded _ _ close closing_not_start Fc).
        reflexivity.
  - rewrite (run_app_start_fails w a Hc Ha Hs st0 pre x post e Eb Hpre Hx).
    norm_trace.
    assert (Sv : served (await_events a ++ [EvSetup] ++ start_events pre
                         ++ [EvStart x] ++ [EvSettled x (Some e)]
                         ++ [EvCleanup] ++ map EvStop pre) = false).
    { unfold served. rewrite !existsb_app, existsb_await by reflexivity.
      rewrite existsb_start_events, existsb_stops by reflexivity.
      reflexivity. }
    split.
    + right. exists pre, x, post, e.
      split; [exact Eb|split; [exact Hpre|split; [exact Hx|split]]];
        [|exact Sv].
      rewrite !start_trace_app, start_trace_await, start_trace_start_events.
      rewrite start_trace_stops. simpl. rewrite ?app_nil_r. reflexivity.
    + intros H. exfalso. apply (eq_true_false_abs _ H). exact Sv.
Qed.

Lemma starts_run_in_turn_witness :
  served (trace (fst (run_app w_quiet a_three_hosts st0))) = true
  /\ exists p q,
       trace (fst (run_app w_quiet a_three_hosts st0)) = p ++ EvRunForever :: q
       /\ start_trace p = start_events (sites_built w_quiet a_three_hosts)
       /\ start_trace q = [].
Proof.
  split; [reflexivity|].
  apply (starts_run_in_turn w_quiet a_three_hosts).
  - left. reflexivity.
  - reflexivity.
  - intros s. reflexivity.
  - reflexivity.
Defined.

(** C8 fails as stated: of three sites built, the third never enters
    [start()] when the second fails, and the start of the second is entered
    only after that of the first has completed. *)
Lemma third_site_never_started :
  sites_built w_second_fails a_three_hosts
  = [tcp_site a_three_hosts (Some "a"); tcp_site a_three_hosts (Some "b");
     tcp_site a_three_hosts (Some "c")]
  /\ start_trace (trace (fst (run_app w_second_fails a_three_hosts st0)))
     = [EvStart (tcp_site a_three_hosts (Some "a"));
        EvSettled (tcp_site a_three_hosts (Some "a")) None;
        EvStart (tcp_site a_three_hosts (Some "b"));
        EvSettled (tcp_site a_three_hosts (Some "b")) (Some (Exception "bind"))]
  /\ ~ In (tcp_site a_three_hosts (Some "c"))
          (started (trace (fst (run_app w_second_fails a_three_hosts st0)))).
Proof.
  repeat apply conj; try reflexivity.
  simpl. intros [H|[H|[]]]; discriminate.
Qed.

(** ** The serve-wait and the closing of the loop *)

(** With a [print] that returns, an interrupt in the serve-wait is
    absorbed: [serve] returns. *)
Lemma serve_interrupted w a e st :
  print_ok a -> run_forever w = Some e -> is_interrupt e = true ->
  serve w a st
  = (mk_state (trace st ++ report_events w a (runner_sites st)
               ++ [EvRunForever])
              (sites st) (runner_sites st), Ok tt).
Proof.
  intros Hp Hf He.
  unfold serve, report_events, try_except_interrupt, bind, call, emit,
    get_runner_sites, ret, raise.
  destruct (print a) as [pr|] eqn:Ep; simpl.
  - rewrite (Hp pr _ Ep), Hf. simpl. rewrite He, <- app_assoc.
    reflexivity.
  - rewrite Hf. simpl. rewrite He. reflexivity.
Qed.

Lemma closing_ok w st :
  (PY_36 w && has_shutdown_asyncgens w = true -> shutdown_asyncgens w = None) ->
  loop_close w = None ->
  closing w st
  = (mk_state (trace st ++ close_events w) (sites st) (runner_sites st), Ok tt).
Proof.
  intros Hg Hc. unfold closing, close_events, call, bind, emit, ret, raise.
  rewrite Hc.
  destruct (PY_36 w); simpl; [destruct (has_shutdown_asyncgens w); simpl|].
  - rewrite (Hg eq_refl). simpl. rewrite <- ?app_assoc. reflexivity.
  - reflexivity.
  - reflexivity.
Qed.

(** The whole run when everything succeeds and the serve-wait ends with an
    interrupt. *)
Lemma run_app_interrupted w a e st :
  startup_ok w a -> run_forever w = Some e -> is_interrupt e = true ->
  teardown_ok w ->
  run_app w a st
  = (mk_state (trace st ++ await_events a ++ [EvSetup]
               ++ start_events (sites_built w a)
               ++ report_events w a (sites_built w a)
               ++ [EvRunForever; EvCleanup]
               ++ map EvStop (sites_built w a) ++ close_events w)
              (sites_built w a) (sites_built w a), Ok tt).
Proof.
  intros (Ha & Hs & Hc & Hst & Hp) Hf He (Hcl & Hg & Hlc).
  rewrite (run_app_after_setup w a st Ha Hs).
  unfold bind at 1, guarded. rewrite try_finally_cleanup.
  rewrite (body_all_started w a Hc _ Hst).
  rewrite (serve_interrupted w a e _ Hp Hf He). simpl. rewrite Hcl.
  rewrite (closing_ok w _ Hg Hlc). simpl.
  rewrite <- !app_assoc. reflexivity.
Qed.

Lemma count_cleanup_report w a regs : count_cleanup (report_events w a regs) = 0.
Proof. unfold report_events. destruct (print a); reflexivity. Qed.

Lemma count_cleanup_close w : count_cleanup (close_events w) = 0.
Proof.
  unfold close_events.
  destruct (PY_36 w && has_shutdown_asyncgens w); reflexivity.
Qed.

(** ** [main] *)

(** [main], check by check. *)
Lemma main_cases env w args extra st :
  main env w args extra st
  = if is_empty (func_of args) || is_empty (mod_of args)
    then (st, Raise (SystemExit 2 msg_entry_func))
    else if startswith "." (mod_of args)
    then (st, Raise (SystemExit 2 msg_relative))
    else
      let st1 := mk_state (trace st ++ [EvImport (mod_of args)])
                          (sites st) (runner_sites st) in
      match import_module env (mod_of args) with
      | inr ex =>
          (st1, Raise (SystemExit 2 ("unable to import " ++ mod_of args
                                     ++ ": " ++ ex)))
      | inl m =>
          match m (func_of args) with
          | None =>
              (st1, Raise (SystemExit 2
                             ("module " ++ repr (mod_of args)
                              ++ " has no attribute " ++ repr (func_of args))))
          | Some f =>
              if opt_is_some (args_path args) && negb (has_AF_UNIX env)
              then (st1, Raise (SystemExit 2 msg_no_af_unix))
              else (run_app w (cli_run_args args (f extra)) ;;
                    arg_parser_exit ("Stopped" ++ newline))
                     (mk_state (trace st ++ [EvImport (mod_of args); EvLogging;
                                             EvFactory extra])
                               (sites st) (runner_sites st))
          end
      end.
Proof.
  unfold main, mod_of, func_of.
  destruct (partition ":" (args_entry_func args)) as [[m sep] f]. simpl.
  unfold bind at 1.
  destruct (is_empty f || is_empty m); simpl;
    [destruct st; reflexivity|].
  unfold bind at 1.
  destruct (startswith "." m); simpl; [destruct st; reflexivity|].
  unfold bind at 1. unfold bind at 1. simpl.
  destruct (import_module env m) as [md|ex]; simpl; [|reflexivity].
  unfold bind at 1.
  destruct (md f) as [fn|]; simpl; [|reflexivity].
  unfold bind at 1.
  destruct (opt_is_some (args_path args) && negb (has_AF_UNIX env)); simpl;
    [reflexivity|].
  unfold bind at 1. simpl. unfold bind at 1. simpl.
  rewrite <- !app_assoc. reflexivity.
Qed.

(** What [main] passes to [run_app] always holds the hostname, so the
    sites are the TCP site of the hostname and the Unix site of the path,
    if any. *)
Lemma cli_sites_built w args ap :
  ctors_ok w ->
  sites_built w (cli_run_args args ap)
  = tcp_site (cli_run_args args ap) (Some (args_hostname args))
    :: match args_path args with
       | Some p => [unix_site (cli_run_args args ap) p]
       | None => []
       end.
Proof.
  intros Hc. rewrite (sites_built_spec w Hc).
  unfold spec_endpoint_set, spec_rule1, spec_rule2, spec_rule3, spec_rule4.
  simpl. destruct (args_path args); reflexivity.
Qed.

(** ** Interrupts *)

Lemma bind_ext {A B} (m : M A) (k1 k2 : A -> M B) st :
  (forall x s, k1 x s = k2 x s) -> bind m k1 st = bind m k2 st.
Proof. intros H. unfold bind. destruct (m st) as [s [x|e]]; auto. Qed.

(** In the serve-wait an interrupt ends as a return of [run_forever]
    does. *)
Lemma serve_interrupt_as_return w a e st :
  run_forever w = Some e -> is_interrupt e = true ->
  serve w a st = serve (with_run_forever w None) a st.
Proof.
  intros Hf He.
  unfold serve, try_except_interrupt, call, bind, emit, get_runner_sites,
    ret, raise.
  destruct (print a) as [pr|]; simpl.
  - destruct (pr _); simpl; [reflexivity|]. rewrite Hf. simpl.
    rewrite He. reflexivity.
  - rewrite Hf. simpl. rewrite He. reflexivity.
Qed.

(** So does the whole run, whatever else happens in it. *)
Lemma run_app_interrupt_as_return w a e st :
  run_forever w = Some e -> is_interrupt e = true ->
  run_app w a st = run_app (with_run_forever w None) a st.
Proof.
  intros Hf He. unfold run_app.
  apply bind_ext. intros _ s1. apply bind_ext. intros _ s2.
  change (setup (with_run_forever w None)) with (setup w).
  apply bind_ext. intros _ s3. apply bind_ext. intros _ s4.
  change (closing (with_run_forever w None)) with (closing w).
  assert (G : guarded w a s4 = guarded (with_run_forever w None) a s4).
  { unfold guarded, try_finally.
    change (cleanup (with_run_forever w None)) with (cleanup w).
    change (build_sites (with_run_forever w None)) with (build_sites w).
    change (start (with_run_forever w None)) with (start w).
    assert (B : forall k1 k2 : M unit,
               (forall s, k1 s = k2 s) ->
               (build_sites w a ;; ss <- get_sites ;;
                for_each_from 0 ss (start w) ;; k1) s4
               = (build_sites w a ;; ss <- get_sites ;;
                  for_each_from 0 ss (start w) ;; k2) s4).
    { intros k1 k2 K. apply bind_ext. intros _ s5. apply bind_ext.
      intros ss s6. apply bind_ext. intros _ s7. apply K. }
    rewrite (B (serve w a) (serve (with_run_forever w None) a)
               (fun s => serve_interrupt_as_return w a e s Hf He)).
    reflexivity. }
  unfold bind. rewrite G. reflexivity.
Qed.

(** C6.  When the run has reached the serve-wait and [GracefulExit] or
    [KeyboardInterrupt] is raised there, the interrupt is absorbed: the run
    goes on as if [run_forever] had returned, [run_app] calls cleanup,
    once, closes the loop and returns; [main] then exits with status 0.
    Cleanup and the closing of the loop are taken to return. *)
Theorem interrupt_is_absorbed (w : World) (a : run_args) (e : exn) :
  startup_ok w a -> run_forever w = Some e -> is_interrupt e = true ->
  teardown_ok w ->
  run_app w a st0
  = (mk_state (await_events a ++ [EvSetup]
               ++ start_events (sites_built w a)
               ++ report_events w a (sites_built w a)
               ++ [EvRunForever; EvCleanup]
               ++ map EvStop (sites_built w a) ++ close_events w)
              (sites_built w a) (sites_built w a), Ok tt)
  /\ run_app w a st0 = run_app (with_run_forever w None) a st0
  /\ count_cleanup (trace (fst (run_app w a st0))) = 1
  /\ forall env args extra f,
       resolves env args f ->
       opt_is_some (args_path args) && negb (has_AF_UNIX env) = false ->
       cli_run_args args (f extra) = a ->
       snd (main env w args extra st0)
       = Raise (SystemExit 0 ("Stopped" ++ newline))
       /\ exit_status (snd (main env w args extra st0)) = 0%Z.
Proof.
  intros Hup Hf He Hdown. split; [|split; [|split]].
  - apply (run_app_interrupted w a e st0 Hup Hf He Hdown).
  - apply (run_app_interrupt_as_return w a e st0 Hf He).
  - rewrite (run_app_interrupted w a e st0 Hup Hf He Hdown). norm_trace.
    rewrite !count_cleanup_app, count_cleanup_await,
      count_cleanup_start_events, count_cleanup_report, count_cleanup_stops,
      count_cleanup_close.
    reflexivity.
  - intros env args extra f (Hfn & Hmn & Hrel & m & Him & Hat) Hpath <-.
    rewrite main_cases, Hfn, Hmn, Hrel, Him, Hat, Hpath. simpl.
    unfold bind.
    rewrite (run_app_interrupted w _ e _ Hup Hf He Hdown).
    split; reflexivity.
Qed.

Lemma interrupt_is_absorbed_witness :
  snd (run_app w_quiet
         (cli_run_args (cli_defaults "mod:func" None) AppReady) st0)
  = Ok tt
  /\ exit_status
       (snd (main (env_of true) w_quiet (cli_defaults "mod:func" None) [] st0))
     = 0%Z.
Proof.
  destruct (interrupt_is_absorbed w_quiet
              (cli_run_args (cli_defaults "mod:func" None) AppReady)
              KeyboardInterrupt)
    as (H1 & _ & _ & H3).
  - split; [left; reflexivity|].
    split; [reflexivity|].
    split; [intros s; reflexivity|].
    split; [intros i s _; reflexivity|].
    intros pr msg H. injection H as <-. reflexivity.
  - reflexivity.
  - reflexivity.
  - split; [reflexivity|]. split; [intros _; reflexivity|reflexivity].
  - split.
    + rewrite H1. reflexivity.
    + apply (H3 (env_of true) (cli_defaults "mod:func" None) []
                (fun _ => AppReady)).
      * repeat split. eexists. split; reflexivity.
      * reflexivity.
      * reflexivity.
Defined.

(** ** The command line *)

(** C9.  With [--path] on a platform whose [socket] has no [AF_UNIX], and
    an entry function that resolves, [main] ends in [arg_parser.error]
    with the diagnostic about file system paths and status 2, right after
    the import: the factory is not called and no site is built or
    started. *)
Theorem path_needs_af_unix (env : Env) (w : World) (args : cli_args)
  (extra : list string) (p : string) (f : factory) :
  args_path args = Some p -> has_AF_UNIX env = false ->
  resolves env args f ->
  main env w args extra st0
  = (mk_state [EvImport (mod_of args)] [] [],
     Raise (SystemExit 2 msg_no_af_unix))
  /\ exit_status (snd (main env w args extra st0)) = 2%Z
  /\ factory_called (trace (fst (main env w args extra st0))) = false
  /\ sites (fst (main env w args extra st0)) = []
  /\ started (trace (fst (main env w args extra st0))) = [].
Proof.
  intros Hp Haf (Hfn & Hmn & Hrel & m & Him & Hat).
  assert (E : main env w args extra st0
              = (mk_state [EvImport (mod_of args)] [] [],
                 Raise (SystemExit 2 msg_no_af_unix))).
  { rewrite main_cases, Hfn, Hmn, Hrel, Him, Hat, Hp, Haf. reflexivity. }
  rewrite E. split; [reflexivity|]. split; [reflexivity|].
  split; [reflexivity|]. split; reflexivity.
Qed.

Lemma path_needs_af_unix_witness :
  main (env_of false) w_quiet (cli_defaults "mod:func" (Some "/tmp/a.sock"))
       [] st0
  = (mk_state [EvImport "mod"] [] [], Raise (SystemExit 2 msg_no_af_unix)).
Proof.
  apply (path_needs_af_unix (env_of false) w_quiet
           (cli_defaults "mod:func" (Some "/tmp/a.sock")) [] "/tmp/a.sock"
           (fun _ => AppReady) eq_refl eq_refl).
  split; [reflexivity|]. split; [reflexivity|]. split; [reflexivity|].
  eexists. split; reflexivity.
Defined.

(** C10: the code at the failing input.  With [--path] given and the
    hostname left to its default, [main] still passes the hostname to
    [run_app], whose rule 1 fires: the TCP site of the hostname is built
    and started before the Unix site. *)
Theorem main_with_path_starts_hostname_site :
  started (trace (fst (main (env_of true) w_quiet
                         (cli_defaults "mod:func" (Some "/tmp/a.sock"))
                         [] st0)))
  = [TCPSite (Some "localhost") (Some 8080%Z)
             (mk_kwargs (60 # 1)%Q None 128) None None;
     UnixSite "/tmp/a.sock" (mk_kwargs (60 # 1)%Q None 128)].
Proof. reflexivity. Qed.

(** * Further properties of [run_app] and [main] *)

(** ** The sites built *)

(** X1.  Every site that [run_app] builds is constructed with the
    caller's [shutdown_timeout], [ssl_context] and [backlog], and every TCP
    site also with the caller's [port], [reuse_address] and
    [reuse_port]. *)
Theorem built_sites_share_options (w : World) (a : run_args) (s : Site) :
  ctors_ok w ->
  In s (sites_built w a) ->
  site_kw s = mk_kwargs (shutdown_timeout a) (ssl_context a) (backlog a)
  /\ match s with
     | TCPSite _ p _ ra rp =>
         p = port a /\ ra = reuse_address a /\ rp = reuse_port a
     | _ => True
     end.
Proof.
  intros Hc. rewrite (sites_built_spec w Hc).
  unfold spec_endpoint_set, spec_rule1, spec_rule2, spec_rule3, spec_rule4.
  rewrite !in_app_iff. intros [H|[H|[H|H]]].
  - destruct (host a) as [|h|hs]; simpl in H.
    + contradiction.
    + destruct H as [<-|[]]. simpl. auto.
    + apply in_map_iff in H as (h & <- & _). simpl. auto.
  - destruct (is_none (host a)); [|contradiction].
    destruct ((is_none (path a) && is_none (sock a)) || opt_is_some (port a));
      [|contradiction].
    destruct H as [<-|[]]. simpl. auto.
  - apply in_map_iff in H as (p & <- & _). simpl. auto.
  - apply in_map_iff in H as (x & <- & _). simpl. auto.
Qed.

Lemma built_sites_share_options_witness :
  site_kw (UnixSite "/x" (mk_kwargs (60 # 1)%Q None 128))
  = mk_kwargs (60 # 1)%Q None 128.
Proof.
  apply (built_sites_share_options w_quiet a_host_and_path
           (UnixSite "/x" (mk_kwargs (60 # 1)%Q None 128))).
  - intros s. reflexivity.
  - right. left. reflexivity.
Defined.

(** X2.  [run_app] builds no site at all exactly when path and sock give
    no element and either host is an empty sequence, or host and port are
    absent while a path or a sock (then an empty sequence) is supplied. *)
Theorem sites_built_empty_iff (w : World) (a : run_args) :
  ctors_ok w ->
  (sites_built w a = []
   <-> elements (path a) = [] /\ elements (sock a) = []
       /\ (host a = Sequence []
           \/ (host a = Absent /\ port a = None
               /\ is_none (path a) && is_none (sock a) = false))).
Proof.
  intros Hc. rewrite (sites_built_spec w Hc).
  unfold spec_endpoint_set, spec_rule1, spec_rule2, spec_rule3, spec_rule4.
  split.
  - intros H. apply app_eq_nil in H as [H1 H].
    apply app_eq_nil in H as [H2 H]. apply app_eq_nil in H as [H3 H4].
    apply map_eq_nil in H3, H4. repeat split; auto.
    destruct (host a) as [|h|[|h hs]]; simpl in *; try discriminate; auto.
    right. destruct (port a); simpl in *.
    + rewrite orb_true_r in H2. discriminate.
    + rewrite orb_false_r in H2.
      destruct (is_none (path a) && is_none (sock a)); [discriminate|auto].
  - intros (Hp & Hs & [Hh|(Hh & Hport & Hps)]); rewrite Hp, Hs, Hh; simpl.
    + reflexivity.
    + rewrite Hport, Hps. reflexivity.
Qed.

Lemma sites_built_empty_iff_witness :
  sites_built w_quiet (run_app_defaults AppReady Absent None (Sequence []))
  = [].
Proof.
  apply (sites_built_empty_iff w_quiet
           (run_app_defaults AppReady Absent None (Sequence []))).
  - intros s. reflexivity.
  - repeat split. right. repeat split.
Defined.

(** ** A constructor that raises *)

Lemma bo_ret : builds_only (ret tt).
Proof. intros st. repeat split. Qed.

Lemma bo_append_site w s : builds_only (append_site w s).
Proof.
  intros st. unfold append_site. destruct (site_ctor w s); repeat split.
Qed.

Lemma bo_bind (m k : M unit) :
  builds_only m -> builds_only k -> builds_only (m ;; k).
Proof.
  intros Hm Hk st. unfold bind.
  destruct (Hm st) as (T & R & E).
  destruct (m st) as [s1 [[]|e]], (m st0) as [s0 [[]|e0]];
    simpl in *; try discriminate.
  - destruct (Hk s1) as (T1 & R1 & E1), (Hk s0) as (_ & _ & E0).
    rewrite T1, R1, E1, E0. auto.
  - auto.
Qed.

Lemma bo_for_each {A} (l : list A) (body : A -> M unit) :
  (forall x, builds_only (body x)) -> builds_only (for_each l body).
Proof.
  intros H. induction l as [|x l IH]; simpl; [apply bo_ret|].
  apply bo_bind; auto.
Qed.

Lemma bo_build_each {A} w (f : A -> Site) (x : pyarg A) :
  builds_only
    match x with
    | Absent => ret tt
    | Single p => append_site w (f p)
    | Sequence ps => for_each ps (fun p => append_site w (f p))
    end.
Proof.
  destruct x; [apply bo_ret|apply bo_append_site|].
  apply bo_for_each. intros p. apply bo_append_site.
Qed.

(** Building leaves the trace and the runner alone, whether or not a
    constructor raises. *)
Lemma bo_build_sites w a : builds_only (build_sites w a).
Proof.
  unfold build_sites. apply bo_bind; [|apply bo_bind].
  - destruct (host a); [|apply bo_append_site|].
    + destruct ((is_none (path a) && is_none (sock a))
                || opt_is_some (port a));
        [apply bo_append_site|apply bo_ret].
    + apply bo_for_each. intros h. apply bo_append_site.
  - apply bo_build_each.
  - apply bo_build_each.
Qed.

(** X3.  When a site constructor raises while the sites are built, no
    site is started, not even those already built; cleanup is called and
    the error reaches the caller, unless cleanup raises one of its own. *)
Theorem constructor_error_starts_nothing (w : World) (a : run_args) (e : exn) :
  app_ok a -> runner_setup w = None ->
  snd (build_sites w a st0) = Raise e ->
  trace (fst (run_app w a st0)) = await_events a ++ [EvSetup; EvCleanup]
  /\ snd (run_app w a st0)
     = Raise (match runner_cleanup w with None => e | Some e' => e' end).
Proof.
  intros Ha Hs Hb. destruct (run_app w a st0) as [st' r] eqn:Er.
  rewrite (run_app_after_setup w a st0 Ha Hs) in Er.
  unfold bind at 1, guarded in Er. rewrite try_finally_cleanup in Er.
  set (st1 := mk_state _ [] []) in Er.
  destruct (bo_build_sites w a st1) as (T & R & E). rewrite Hb in E.
  destruct (build_sites w a st1) as [s1 r1] eqn:Eb. simpl in T, R, E.
  subst r1. rewrite (bind_raise _ _ _ _ _ Eb) in Er. simpl in Er.
  rewrite T, R in Er. simpl in Er. rewrite <- app_assoc in Er.
  destruct (runner_cleanup w); injection Er as <- <-; auto.
Qed.

Lemma constructor_error_starts_nothing_witness :
  trace (fst (run_app w_unix_ctor_fails a_host_and_path st0))
  = [EvSetup; EvCleanup]
  /\ snd (run_app w_unix_ctor_fails a_host_and_path st0)
     = Raise (Exception "ctor").
Proof.
  apply (constructor_error_starts_nothing w_unix_ctor_fails a_host_and_path
           (Exception "ctor")).
  - left. reflexivity.
  - reflexivity.
  - reflexivity.
Defined.

(** ** Errors in the report and in the serve-wait *)

Lemma serve_print_raises w a pr e st :
  print a = Some pr ->
  pr (running_on (sorted (map (site_name w) (runner_sites st)))) = Some e ->
  serve w a st
  = (mk_state (trace st
               ++ [EvPrint (running_on
                              (sorted (map (site_name w) (runner_sites st))))])
              (sites st) (runner_sites st),
     if is_interrupt e then Ok tt else Raise e).
Proof.
  intros Hp He.
  unfold serve, try_except_interrupt, call, bind, emit, get_runner_sites,
    ret, raise.
  rewrite Hp. simpl. rewrite He. simpl.
  destruct (is_interrupt e); reflexivity.
Qed.

Lemma serve_error w a e st :
  print_ok a -> run_forever w = Some e -> is_interrupt e = false ->
  serve w a st
  = (mk_state (trace st ++ report_events w a (runner_sites st)
               ++ [EvRunForever])
              (sites st) (runner_sites st), Raise e).
Proof.
  intros Hp Hf He.
  unfold serve, report_events, try_except_interrupt, call, bind, emit,
    get_runner_sites, ret, raise.
  destruct (print a) as [pr|] eqn:Ep; simpl.
  - rewrite (Hp pr _ Ep), Hf. simpl. rewrite He, <- app_assoc.
    reflexivity.
  - rewrite Hf. simpl. rewrite He. reflexivity.
Qed.

Lemma served_close_events w : served (close_events w) = false.
Proof.
  unfold close_events.
  destruct (PY_36 w && has_shutdown_asyncgens w); reflexivity.
Qed.

(** X4.  The report is printed inside the [try] that absorbs interrupts:
    when [print] raises, the serve-wait is not entered and every site is
    stopped by cleanup; an interrupt from [print] is absorbed and [run_app]
    returns, any other error reaches the caller and the loop stays
    open. *)
Theorem print_error_skips_serve_wait (w : World) (a : run_args)
  (pr : string -> option exn) (e : exn) :
  app_ok a -> runner_setup w = None -> ctors_ok w ->
  starts_ok w 0 (sites_built w a) ->
  print a = Some pr ->
  pr (running_on (sorted (map (site_name w) (sites_built w a)))) = Some e ->
  teardown_ok w ->
  trace (fst (run_app w a st0))
  = await_events a ++ [EvSetup] ++ start_events (sites_built w a)
    ++ [EvPrint (running_on (sorted (map (site_name w) (sites_built w a))));
        EvCleanup]
    ++ map EvStop (sites_built w a)
    ++ (if is_interrupt e then close_events w else [])
  /\ served (trace (fst (run_app w a st0))) = false
  /\ snd (run_app w a st0) = if is_interrupt e then Ok tt else Raise e.
Proof.
  intros Ha Hs Hc Hst Hp He (Hcl & Hg & Hlc).
  assert (T : run_app w a st0
              = (mk_state
                   (await_events a ++ [EvSetup]
                    ++ start_events (sites_built w a)
                    ++ [EvPrint (running_on
                                   (sorted (map (site_name w)
                                                (sites_built w a))));
                        EvCleanup]
                    ++ map EvStop (sites_built w a)
                    ++ (if is_interrupt e then close_events w else []))
                   (sites_built w a) (sites_built w a),
                 if is_interrupt e then Ok tt else Raise e)).
  { rewrite (run_app_after_setup w a st0 Ha Hs).
    unfold bind at 1, guarded. rewrite try_finally_cleanup.
    rewrite (body_all_started w a Hc _ Hst).
    rewrite (serve_print_raises w a pr e
               (mk_state _ (sites_built w a) (sites_built w a)) Hp He).
    simpl. rewrite Hcl.
    destruct (is_interrupt e).
    - rewrite (closing_ok w _ Hg Hlc). simpl.
      rewrite <- !app_assoc. reflexivity.
    - rewrite app_nil_r, <- !app_assoc. reflexivity. }
  rewrite T. norm_trace. repeat apply conj; try reflexivity.
  unfold served. rewrite !existsb_app, existsb_await by reflexivity.
  rewrite existsb_start_events, existsb_stops by reflexivity. simpl.
  destruct (is_interrupt e); [apply served_close_events|reflexivity].
Qed.

Lemma print_error_skips_serve_wait_witness :
  served (trace (fst (run_app w_quiet (a_print_raises KeyboardInterrupt) st0)))
  = false
  /\ snd (run_app w_quiet (a_print_raises KeyboardInterrupt) st0) = Ok tt.
Proof.
  destruct (print_error_skips_serve_wait w_quiet
              (a_print_raises KeyboardInterrupt)
              (fun _ => Some KeyboardInterrupt) KeyboardInterrupt)
    as (_ & H2 & H3).
  - left. reflexivity.
  - reflexivity.
  - intros s. reflexivity.
  - intros i s _. reflexivity.
  - reflexivity.
  - reflexivity.
  - split; [reflexivity|]. split; [intros _; reflexivity|reflexivity].
  - split; [exact H2|exact H3].
Defined.

(** X5.  Only [GracefulExit] and [KeyboardInterrupt] are absorbed: any
    other exception out of [loop.run_forever()] reaches the caller after
    cleanup has stopped every site, and neither
    [loop.shutdown_asyncgens()] nor [loop.close()] is called. *)
Theorem serve_error_reaches_caller (w : World) (a : run_args) (e : exn) :
  startup_ok w a -> run_forever w = Some e -> is_interrupt e = false ->
  runner_cleanup w = None ->
  run_app w a st0
  = (mk_state (await_events a ++ [EvSetup] ++ start_events (sites_built w a)
               ++ report_events w a (sites_built w a)
               ++ [EvRunForever; EvCleanup]
               ++ map EvStop (sites_built w a))
              (sites_built w a) (sites_built w a), Raise e).
Proof.
  intros (Ha & Hs & Hc & Hst & Hp) Hf He Hcl.
  rewrite (run_app_after_setup w a st0 Ha Hs).
  unfold bind at 1, guarded. rewrite try_finally_cleanup.
  rewrite (body_all_started w a Hc _ Hst).
  rewrite (serve_error w a e _ Hp Hf He). simpl. rewrite Hcl.
  rewrite <- !app_assoc. reflexivity.
Qed.

Lemma serve_error_reaches_caller_witness :
  snd (run_app w_serve_error a_wildcard st0) = Raise (Exception "loop")
  /\ closed (trace (fst (run_app w_serve_error a_wildcard st0))) = false.
Proof.
  rewrite (serve_error_reaches_caller w_serve_error a_wildcard
             (Exception "loop")).
  - split; reflexivity.
  - split; [left; reflexivity|].
    split; [reflexivity|].
    split; [intros s; reflexivity|].
    split; [intros i s _; reflexivity|].
    intros pr msg H. injection H as <-. reflexivity.
  - reflexivity.
  - reflexivity.
  - reflexivity.
Defined.

(** ** Cleanup that raises, and the closing of the loop *)

Lemma body_not_closing e : is_body_event e = true -> is_closing_event e = false.
Proof. destruct e; simpl; auto; discriminate. Qed.

(** X6.  An exception raised by [runner.cleanup()] replaces whatever the
    guarded body ended with, a normal return and an absorbed interrupt
    included: it reaches the caller, and neither
    [loop.shutdown_asyncgens()] nor [loop.close()] is called. *)
Theorem cleanup_error_replaces_outcome (w : World) (a : run_args) (e : exn) :
  app_ok a -> runner_setup w = None -> runner_cleanup w = Some e ->
  snd (run_app w a st0) = Raise e
  /\ closed (trace (fst (run_app w a st0))) = false.
Proof.
  intros Ha Hs Hcl. destruct (run_app w a st0) as [st' r] eqn:Er.
  rewrite (run_app_after_setup w a st0 Ha Hs) in Er.
  unfold bind at 1, guarded in Er. rewrite try_finally_cleanup, Hcl in Er.
  set (st1 := mk_state _ [] []) in Er.
  destruct ((build_sites w a ;; ss <- get_sites ;;
             for_each_from 0 ss (start w) ;; serve w a) st1)
    as [s2 r2] eqn:Eb.
  destruct (eo_body is_body_event start_is_body serve_is_body w a _ _ _ Eb)
    as (body & Tb & Fb).
  simpl in Er. injection Er as <- <-. split; [reflexivity|].
  simpl. rewrite Tb. subst st1. norm_trace.
  unfold closed. rewrite !existsb_app, existsb_await by reflexivity.
  rewrite (existsb_excluded _ _ body body_not_closing Fb).
  rewrite existsb_stops by reflexivity. reflexivity.
Qed.

Lemma cleanup_error_replaces_outcome_witness :
  snd (run_app w_cleanup_fails a_wildcard st0) = Raise (Exception "cleanup")
  /\ closed (trace (fst (run_app w_cleanup_fails a_wildcard st0))) = false.
Proof.
  apply (cleanup_error_replaces_outcome w_cleanup_fails a_wildcard
           (Exception "cleanup")).
  - left. reflexivity.
  - reflexivity.
  - reflexivity.
Defined.

Lemma closing_in w st :
  exists evs,
    trace (fst (closing w st)) = trace st ++ evs
    /\ (In EvShutdownAsyncgens evs ->
        PY_36 w = true /\ has_shutdown_asyncgens w = true)
    /\ (In EvClose evs ->
        PY_36 w && has_shutdown_asyncgens w = true ->
        shutdown_asyncgens w = None).
Proof.
  unfold closing, call, bind, emit, ret, raise.
  destruct (PY_36 w), (has_shutdown_asyncgens w),
    (shutdown_asyncgens w) as [x|], (loop_close w) as [y|]; simpl;
    eexists; (split; [rewrite <- ?app_assoc; reflexivity|]); simpl;
    intuition (discriminate || auto).
Qed.

Lemma not_in_excluded (ok : Event -> bool) e evs :
  forallb ok evs = true -> ok e = false -> ~ In e evs.
Proof.
  intros F He Hin. rewrite forallb_forall in F.
  rewrite (F e Hin) in He. discriminate.
Qed.

(** The closing events of a run in which [setup] returned. *)
Lemma closing_after_setup w a :
  app_ok a -> runner_setup w = None ->
  (In EvShutdownAsyncgens (trace (fst (run_app w a st0))) ->
   runner_cleanup w = None
   /\ PY_36 w = true /\ has_shutdown_asyncgens w = true)
  /\ (In EvClose (trace (fst (run_app w a st0))) ->
      runner_cleanup w = None
      /\ (PY_36 w && has_shutdown_asyncgens w = true ->
          shutdown_asyncgens w = None)).
Proof.
  intros Ha Hs. destruct (run_app w a st0) as [st' r] eqn:Er.
  rewrite (run_app_after_setup w a st0 Ha Hs) in Er.
  unfold bind at 1, guarded in Er. rewrite try_finally_cleanup in Er.
  set (st1 := mk_state _ [] []) in Er.
  destruct ((build_sites w a ;; ss <- get_sites ;;
             for_each_from 0 ss (start w) ;; serve w a) st1)
    as [s2 r2] eqn:Eb.
  destruct (eo_body is_body_event start_is_body serve_is_body w a _ _ _ Eb)
    as (body & Tb & Fb).
  simpl in Er.
  set (tr2 := trace s2 ++ EvCleanup :: map EvStop (runner_sites s2)) in Er.
  assert (F2 : forallb (fun e => negb (is_closing_event e)) tr2 = true).
  { apply forallb_forall. intros x Hx. subst tr2 st1. rewrite Tb in Hx.
    cbn [trace st0] in Hx.
    repeat match goal with
           | H : In _ (_ ++ _) |- _ => apply in_app_or in H as [H|H]
           end.
    - contradiction.
    - unfold await_events in Hx.
      destruct (app a); [contradiction|destruct Hx as [<-|[]]; reflexivity].
    - destruct Hx as [<-|[]]. reflexivity.
    - rewrite forallb_forall in Fb.
      now rewrite (body_not_closing x (Fb x Hx)).
    - destruct Hx as [<-|Hx]; [reflexivity|].
      apply in_map_iff in Hx as (y & <- & _). reflexivity. }
  assert (N1 : ~ In EvShutdownAsyncgens tr2)
    by (apply (not_in_excluded _ _ _ F2); reflexivity).
  assert (N2 : ~ In EvClose tr2)
    by (apply (not_in_excluded _ _ _ F2); reflexivity).
  destruct (runner_cleanup w) as [c|] eqn:Hcl.
  { injection Er as <- _. simpl. split; intros Hin; contradiction. }
  destruct r2 as [[]|x].
  2:{ injection Er as <- _. simpl. split; intros Hin; contradiction. }
  destruct (closing_in w (mk_state tr2 (sites s2) (runner_sites s2)))
    as (evs & Tc & Ha1 & Ha2).
  rewrite Er in Tc. simpl in Tc. simpl. rewrite Tc.
  split; intros Hin; apply in_app_or in Hin as [Hin|Hin];
    try contradiction; auto.
Qed.

(** X7.  In every run, [loop.shutdown_asyncgens()] is called only on
    [PY_36] with a loop that has the method, and [loop.close()] only when
    that call, if made, returned; both only after a cleanup that
    returned. *)
Theorem loop_closed_only_after_teardown (w : World) (a : run_args) :
  (In EvShutdownAsyncgens (trace (fst (run_app w a st0))) ->
   runner_cleanup w = None
   /\ PY_36 w = true /\ has_shutdown_asyncgens w = true)
  /\ (In EvClose (trace (fst (run_app w a st0))) ->
      runner_cleanup w = None
      /\ (PY_36 w && has_shutdown_asyncgens w = true ->
          shutdown_asyncgens w = None)).
Proof.
  destruct (app a) as [|[e|]] eqn:Eapp.
  2:{ assert (E : run_app w a st0 = (mk_state [EvAwaitApp] [] [], Raise e))
        by (unfold run_app; rewrite Eapp; reflexivity).
      rewrite E. simpl. intuition discriminate. }
  - destruct (runner_setup w) as [e|] eqn:Hs.
    + assert (E : run_app w a st0 = (mk_state [EvSetup] [] [], Raise e))
        by (unfold run_app, setup; rewrite Eapp, Hs; reflexivity).
      rewrite E. simpl. intuition discriminate.
    + apply closing_after_setup; [left; exact Eapp|exact Hs].
  - destruct (runner_setup w) as [e|] eqn:Hs.
    + assert (E : run_app w a st0
                  = (mk_state [EvAwaitApp; EvSetup] [] [], Raise e))
        by (unfold run_app, setup; rewrite Eapp, Hs; reflexivity).
      rewrite E. simpl. intuition discriminate.
    + apply closing_after_setup; [right; exact Eapp|exact Hs].
Qed.

Lemma loop_closed_only_after_teardown_witness :
  In EvClose (trace (fst (run_app w_quiet a_wildcard st0)))
  /\ runner_cleanup w_quiet = None.
Proof.
  assert (H : In EvClose (trace (fst (run_app w_quiet a_wildcard st0)))).
  { simpl. do 8 right. left. reflexivity. }
  split; [exact H|].
  exact (proj1 (proj2 (loop_closed_only_after_teardown w_quiet a_wildcard) H)).
Defined.

(** ** The entry function of [main] *)

Lemma str_length_app (s t : string) :
  String.length (s ++ t) = String.length s + String.length t.
Proof. induction s as [|c s IH]; simpl; [reflexivity|]. now rewrite IH. Qed.

Lemma substring_all (s : string) : substring 0 (String.length s) s = s.
Proof. induction s as [|c s IH]; simpl; [reflexivity|]. now rewrite IH. Qed.

Lemma substring_head (s t : string) :
  substring 0 (String.length s) (s ++ t) = s.
Proof.
  induction s as [|c s IH]; simpl.
  - destruct t; reflexivity.
  - now rewrite IH.
Qed.

Lemma substring_tail (s t : string) :
  substring (String.length s) (String.length t) (s ++ t) = t.
Proof. induction s as [|c s IH]; simpl; [apply substring_all|exact IH]. Qed.

Lemma prefix_empty (s : string) : prefix "" s = true.
Proof. destruct s; reflexivity. Qed.

(** The first colon of [m ++ ":" ++ f] is the one after [m] when [m] holds
    none. *)
Lemma index_cons (c : ascii) (s : string) :
  index 0 ":" (String c s)
  = if prefix ":" (String c s) then Some 0
    else match index 0 ":" s with
         | Some n => Some (S n)
         | None => None
         end.
Proof. reflexivity. Qed.

Lemma prefix_colon (c : ascii) (s : string) :
  prefix ":" (String c s) = if ascii_dec ":" c then true else false.
Proof.
  change (prefix ":" (String c s))
    with (match ascii_dec ":" c with
          | left _ => prefix "" s
          | right _ => false
          end).
  destruct (ascii_dec ":" c); [apply prefix_empty|reflexivity].
Qed.

Lemma index_colon (m f : string) :
  index 0 ":" m = None ->
  index 0 ":" (m ++ ":" ++ f) = Some (String.length m).
Proof.
  induction m as [|c m IH]; intros H.
  - change ("" ++ ":" ++ f)%string with (String ":" f).
    rewrite index_cons, prefix_colon.
    destruct (ascii_dec ":" ":") as [_|N]; [reflexivity|now destruct N].
  - change (String c m ++ ":" ++ f)%string
      with (String c (m ++ ":" ++ f)%string).
    rewrite index_cons, prefix_colon in *.
    destruct (ascii_dec ":" c); [discriminate|].
    destruct (index 0 ":" m); [discriminate|]. now rewrite IH.
Qed.

(** [partition] splits [module:function] at the colon. *)
Lemma partition_colon (m f : string) :
  index 0 ":" m = None -> partition ":" (m ++ ":" ++ f) = (m, ":", f).
Proof.
  intros H. unfold partition. rewrite (index_colon m f H).
  rewrite substring_head.
  replace (String.length m + String.length ":")
    with (String.length (m ++ ":")%string) by apply str_length_app.
  replace (String.length (m ++ ":" ++ f)%string - String.length m
           - String.length ":")
    with (String.length f).
  - replace (m ++ ":" ++ f)%string with ((m ++ ":") ++ f)%string at 1.
    + now rewrite substring_tail.
    + clear. induction m as [|c m IH]; simpl; [reflexivity|]. now rewrite IH.
  - rewrite !str_length_app. simpl. lia.
Qed.

(** X9.  With an entry function [m:f], where [m] holds no colon and is
    neither empty nor relative and [f] is not empty, [main] imports [m],
    takes its attribute [f], calls it with the arguments the parser did
    not know, and runs the application it returns on the hostname, port
    and path of the command line; it exits with status 0 and [Stopped]
    when [run_app] returns, and with the error of [run_app] otherwise. *)
Theorem main_runs_factory (env : Env) (w : World) (args : cli_args)
  (extra : list string) (m f : string) (md : module) (fn : factory) :
  args_entry_func args = (m ++ ":" ++ f)%string ->
  index 0 ":" m = None ->
  is_empty m = false -> is_empty f = false -> startswith "." m = false ->
  import_module env m = inl md -> md f = Some fn ->
  opt_is_some (args_path args) && negb (has_AF_UNIX env) = false ->
  main env w args extra st0
  = (fst (run_app w (cli_run_args args (fn extra))
            (mk_state [EvImport m; EvLogging; EvFactory extra] [] [])),
     match snd (run_app w (cli_run_args args (fn extra))
                  (mk_state [EvImport m; EvLogging; EvFactory extra] [] []))
     with
     | Ok _ => Raise (SystemExit 0 ("Stopped" ++ newline))
     | Raise e => Raise e
     end).
Proof.
  intros He Hi Hm Hf Hrel Him Hat Hp.
  rewrite main_cases. unfold mod_of, func_of.
  rewrite He, (partition_colon m f Hi). simpl fst. simpl snd.
  rewrite Hf, Hm, Hrel, Him, Hat, Hp. simpl.
  unfold bind. destruct (run_app w _ _) as [st' [[]|e]]; reflexivity.
Qed.

Lemma main_runs_factory_witness :
  main (env_of true) w_quiet (cli_defaults "mod:func" None) ["--flag"] st0
  = (fst (run_app w_quiet
            (cli_run_args (cli_defaults "mod:func" None) AppReady)
            (mk_state [EvImport "mod"; EvLogging; EvFactory ["--flag"]]
                      [] [])),
     Raise (SystemExit 0 ("Stopped" ++ newline))).
Proof.
  rewrite (main_runs_factory (env_of true) w_quiet
             (cli_defaults "mod:func" None) ["--flag"] "mod" "func"
             (fun f => if String.eqb f "func"
                       then Some (fun _ => AppReady) else None)
             (fun _ => AppReady));
    reflexivity.
Defined.

(** ** What [main] does before the factory *)

Lemma eo_weaken (ok ok' : Event -> bool) {A} (m : M A) :
  (forall e, ok e = true -> ok' e = true) ->
  emits_only ok m -> emits_only ok' m.
Proof.
  intros Hw Hm st st' r E. destruct (Hm _ _ _ E) as (evs & T & F).
  exists evs. split; [exact T|]. rewrite forallb_forall in *. auto.
Qed.

Lemma eo_cleanup (ok : Event -> bool) w :
  ok EvCleanup = true -> (forall s, ok (EvStop s) = true) ->
  emits_only ok (cleanup w).
Proof.
  intros H1 H2 st st' r E. rewrite cleanup_spec in E. injection E as <- _.
  exists (EvCleanup :: map EvStop (runner_sites st)). simpl.
  split; [reflexivity|]. rewrite H1. simpl.
  induction (runner_sites st); simpl; [reflexivity|]. now rewrite H2.
Qed.

Lemma eo_try_finally (ok : Event -> bool) {A} (body : M A) (fin : M unit) :
  emits_only ok body -> emits_only ok fin ->
  emits_only ok (try_finally body fin).
Proof.
  intros Hb Hf st st' r E. unfold try_finally in E.
  destruct (body st) as [st1 r1] eqn:Eb.
  destruct (fin st1) as [st2 r2] eqn:Ef.
  destruct (Hb _ _ _ Eb) as (ev1 & T1 & F1).
  destruct (Hf _ _ _ Ef) as (ev2 & T2 & F2).
  exists (ev1 ++ ev2).
  destruct r2; injection E as <- _;
    rewrite T2, T1, <- app_assoc, forallb_app, F1, F2; auto.
Qed.

(** [run_app] imports nothing, configures no logging and calls no
    factory. *)
Lemma eo_run_app w a : emits_only is_run_event (run_app w a).
Proof.
  unfold run_app. apply eo_bind.
  { destruct (app a); [apply eo_ret|apply eo_call; reflexivity]. }
  intros _. apply eo_bind; [apply eo_silent; reflexivity|].
  intros _. apply eo_bind; [apply eo_call; reflexivity|].
  intros _. apply eo_bind; [apply eo_silent; reflexivity|].
  intros _. apply eo_bind.
  - unfold guarded. apply eo_try_finally.
    + apply eo_body; intros e; destruct e; simpl; auto.
    + apply eo_cleanup; reflexivity.
  - intros _. apply (eo_weaken is_closing_event); [|apply eo_closing].
    intros e. destruct e; simpl; auto.
Qed.

(** X10.  [main] imports a module only when the entry function has a
    module part and a function part that are not empty and the module
    part does not start with a dot, and then it imports that module part
    and nothing else. *)
Theorem main_imports_only_wellformed (env : Env) (w : World)
  (args : cli_args) (extra : list string) (m : string) :
  In (EvImport m) (trace (fst (main env w args extra st0))) ->
  m = mod_of args
  /\ is_empty m = false /\ is_empty (func_of args) = false
  /\ startswith "." m = false.
Proof.
  rewrite main_cases.
  destruct (is_empty (func_of args)) eqn:E1; simpl; [contradiction|].
  destruct (is_empty (mod_of args)) eqn:E2; simpl; [contradiction|].
  destruct (startswith "." (mod_of args)) eqn:E3; simpl; [contradiction|].
  assert (K : In (EvImport m) [EvImport (mod_of args)] ->
              m = mod_of args /\ is_empty m = false
              /\ false = false /\ startswith "." m = false).
  { intros [H|[]]. injection H as <-. auto. }
  destruct (import_module env (mod_of args)) as [md|ex]; [|exact K].
  destruct (md (func_of args)) as [fn|]; [|exact K].
  destruct (opt_is_some (args_path args) && negb (has_AF_UNIX env));
    [exact K|].
  unfold bind. destruct (run_app w _ _) as [st' r] eqn:Er.
  destruct (eo_run_app w _ _ _ _ Er) as (evs & T & F). simpl in T.
  destruct r as [[]|e]; simpl; rewrite T; intros [H|[H|[H|H]]];
    try discriminate;
    try (apply K; left; exact H);
    exfalso;
    apply (not_in_excluded _ _ _ F
             (eq_refl : is_run_event (EvImport m) = false) H).
Qed.

Lemma main_imports_only_wellformed_witness :
  "mod" = mod_of (cli_defaults "mod:func" None).
Proof.
  apply (main_imports_only_wellformed (env_of true) w_quiet
           (cli_defaults "mod:func" None) [] "mod").
  left. reflexivity.
Defined.

(** X12.  [main] ends with the diagnostic about file system paths,
    before any call of the factory, exactly when the entry function
    resolves, a path is given and [socket] has no [AF_UNIX]. *)
Theorem af_unix_diagnostic_iff (env : Env) (w : World) (args : cli_args)
  (extra : list string) :
  (snd (main env w args extra st0) = Raise (SystemExit 2 msg_no_af_unix)
   /\ factory_called (trace (fst (main env w args extra st0))) = false)
  <-> ((exists f, resolves env args f)
       /\ opt_is_some (args_path args) = true /\ has_AF_UNIX env = false).
Proof.
  rewrite main_cases. unfold resolves. split.
  - destruct (is_empty (func_of args)); [simpl; intros [H _]; discriminate|].
    destruct (is_empty (mod_of args)); [simpl; intros [H _]; discriminate|].
    destruct (startswith "." (mod_of args));
      [simpl; intros [H _]; discriminate|].
    destruct (import_module env (mod_of args)) as [md|ex];
      [|simpl; intros [H _]; discriminate].
    destruct (md (func_of args)) as [fn|] eqn:Hat;
      [|simpl; intros [H _]; discriminate].
    destruct (opt_is_some (args_path args)), (has_AF_UNIX env); simpl.
    2:{ intros _. split; [|auto]. exists fn. repeat split. eauto. }
    all: unfold bind; destruct (run_app w _ _) as [st' r] eqn:Er;
      destruct (eo_run_app w _ _ _ _ Er) as (evs & T & F); simpl in T;
      destruct r as [[]|e]; simpl; rewrite T; simpl;
      intros [_ H]; discriminate.
  - intros ((f & Hfn & Hmn & Hrel & md & Him & Hat) & Hp & Haf).
    rewrite Hfn, Hmn, Hrel, Him, Hat, Hp, Haf. simpl. auto.
Qed.

(** X13.  Whatever the command line, the sites [main] has [run_app] build
    are the TCP site on the hostname and port of the command line, with
    the defaults of [run_app] for every other option, followed by the Unix
    site of the path when one is given; the wildcard site is never
    built. *)
Theorem cli_sites (w : World) (args : cli_args) (ap : AppArg) :
  ctors_ok w ->
  sites_built w (cli_run_args args ap)
  = TCPSite (Some (args_hostname args)) (Some (args_port args))
            (mk_kwargs (60 # 1)%Q None 128) None None
    :: match args_path args with
       | Some p => [UnixSite p (mk_kwargs (60 # 1)%Q None 128)]
       | None => []
       end.
Proof.
  intros Hc. rewrite (sites_built_spec w Hc).
  unfold spec_endpoint_set, spec_rule1, spec_rule2, spec_rule3, spec_rule4.
  simpl. destruct (args_path args); reflexivity.
Qed.

Lemma cli_sites_witness :
  sites_built w_quiet (cli_run_args (cli_defaults "mod:func" None) AppReady)
  = [TCPSite (Some "localhost") (Some 8080%Z)
             (mk_kwargs (60 # 1)%Q None 128) None None].
Proof.
  apply (cli_sites w_quiet (cli_defaults "mod:func" None) AppReady).
  intros s. reflexivity.
Defined.

(** X14.  An entry function without a colon, or with nothing before or
    nothing after its first colon, is refused with the diagnostic about
    the [module:function] syntax, before anything is imported. *)
Theorem entry_func_syntax_error (env : Env) (w : World) (args : cli_args)
  (extra : list string) :
  (index 0 ":" (args_entry_func args) = None
   \/ exists m f, args_entry_func args = (m ++ ":" ++ f)%string
                  /\ index 0 ":" m = None
                  /\ is_empty m || is_empty f = true) ->
  main env w args extra st0 = (st0, Raise (SystemExit 2 msg_entry_func)).
Proof.
  intros H. rewrite main_cases. unfold mod_of, func_of.
  destruct H as [H|(m & f & He & Hi & Hmf)].
  - unfold partition. rewrite H. reflexivity.
  - rewrite He, (partition_colon m f Hi). simpl fst. simpl snd.
    rewrite orb_comm, Hmf. reflexivity.
Qed.

Lemma entry_func_syntax_error_witness :
  main (env_of true) w_quiet (cli_defaults "mod:" None) [] st0
  = (st0, Raise (SystemExit 2 msg_entry_func)).
Proof.
  apply (entry_func_syntax_error (env_of true) w_quiet
           (cli_defaults "mod:" None) []).
  right. exists "mod", "". repeat split.
Defined.

(** X15.  An entry function [m:f] whose function part [f] is not empty
    and whose module part [m] starts with a dot is refused with the
    diagnostic about relative module names, before anything is imported
    (with an empty [f] the syntax check of line 186 comes first). *)
Theorem relative_module_refused (env : Env) (w : World) (args : cli_args)
  (extra : list string) (m f : string) :
  args_entry_func args = (m ++ ":" ++ f)%string ->
  index 0 ":" m = None -> is_empty f = false -> startswith "." m = true ->
  main env w args extra st0 = (st0, Raise (SystemExit 2 msg_relative)).
Proof.
  intros He Hi Hf Hrel. rewrite main_cases. unfold mod_of, func_of.
  rewrite He, (partition_colon m f Hi). simpl fst. simpl snd.
  rewrite Hf, Hrel.
  destruct m; [discriminate|reflexivity].
Qed.

Lemma relative_module_refused_witness :
  main (env_of true) w_quiet (cli_defaults ".mod:func" None) [] st0
  = (st0, Raise (SystemExit 2 msg_relative)).
Proof.
  apply (relative_module_refused (env_of true) w_quiet
           (cli_defaults ".mod:func" None) [] ".mod" "func");
    reflexivity.
Defined.
